(** * A shallow embedding of [bot/bot.js] (class [Bot], the messaging session
    manager) and the properties of its notification handlers.

    Conventions of the embedding:
    - JS objects used as maps ([this.myConversations]) are [gmap string _];
      conversation ids are service-generated identifiers, never names of
      [Object.prototype] members.
    - [undefined] is [None]; an object literal [{}] is the record with every
      field [None].
    - The per-batch [respond] object is an association list in insertion
      order, which is the order [Object.keys] enumerates its keys in (the keys
      all contain ["-"], hence none is an array index).
    - Calls into the transport (the [Agent] base class), emitted events and
      log lines are recorded, in program order, in a trace of [Effect]s.  The
      completion callbacks passed to the transport are separate definitions
      named [<method>_callback].
    - A handler runs in the monad [M]: it reads and writes the [Bot], appends
      to the trace, and either returns or throws; what was mutated and traced
      before a [throw] stays.
    - Numbers that are sequence numbers are [N]; the reconnect delays are
      binary64 floats, as in JS.
    - The timeouts set with [setTimeout] live in the [Runtime], beside the
      bot: each is an object of its own, pending until it fires or
      [clearTimeout] is called on it, whatever [this._retryConnection] holds
      by then. *)

From Stdlib Require Import PrimFloat FloatOps SpecFloat QArith Qabs.
From stdpp Require Import gmap strings list pretty.

Local Open Scope string_scope.
Local Open Scope list_scope.

(** ** Wire data *)

Record Participant := {
  participant_id : string;
  participant_role : option string
}.

Record ConversationDetails := {
  participants : list Participant
}.

(** Messaging events are a tagged union on [event.type]. *)
Inductive Event :=
| ContentEvent (contentType message : string)
| RichContentEvent (content : string)
| AcceptStatusEvent (status : string) (sequenceList : list N)
| ChatStateEvent (chatState : string).

Definition event_type (e : Event) : string :=
  match e with
  | ContentEvent _ _ => "ContentEvent"
  | RichContentEvent _ => "RichContentEvent"
  | AcceptStatusEvent _ _ => "AcceptStatusEvent"
  | ChatStateEvent _ => "ChatStateEvent"
  end.

Record OriginatorMetadata := {
  om_id : string;
  om_role : string
}.

Record LastContentEventNotification := {
  lce_sequence : N;
  lce_serverTimestamp : N;
  lce_originatorId : string;
  lce_originatorPId : string;
  lce_originatorMetadata : OriginatorMetadata;
  lce_event : Event
}.

(** [change.result] of a [cqm.ExConversationChangeNotification]. *)
Record ConvResult := {
  convId : string;
  conversationDetails : ConversationDetails;
  lastContentEventNotification : option LastContentEventNotification
}.

Record ConvChange := {
  cc_type : string;
  cc_result : ConvResult
}.

Record ConvBody := {
  cb_changes : list ConvChange
}.

(** One change of a [ms.MessagingEventNotification]. *)
Record MsgChange := {
  mc_dialogId : string;
  mc_sequence : N;
  mc_originatorId : string;
  mc_originatorMetadata : OriginatorMetadata;
  mc_event : Event
}.

Record MsgBody := {
  mb_dialogId : string;
  mb_changes : list MsgChange
}.

Record Ring := {
  ringId : string;
  ringState : string
}.

Record RoutingResult := {
  rr_conversationId : string;
  ringsDetails : list Ring
}.

Record RoutingChange := {
  rc_type : string;
  rc_result : RoutingResult
}.

Record RoutingBody := {
  rb_changes : list RoutingChange
}.

Record UserProfile := { profile_json : string }.
Record TransportError := { error_json : string }.

(** ** The bot's own data *)

(** The reduced projection of the last content event kept by
    [_updateMyConversation]. *)
Record LastContentSummary := {
  ls_sequence : N;
  ls_serverTimestamp : N;
  ls_originatorId : string;
  ls_originatorPId : string;
  ls_originatorMetadata_role : string;
  ls_event_type : string
}.

(** An entry of [myConversations]. *)
Record TrackedConversation := {
  tc_convId : option string;
  tc_conversationDetails : option ConversationDetails;
  tc_consumerProfile : option UserProfile;
  tc_lastContentEventNotification : option LastContentSummary
}.

(** The object literal [{}]. *)
Definition empty_object : TrackedConversation :=
  {| tc_convId := None; tc_conversationDetails := None;
     tc_consumerProfile := None; tc_lastContentEventNotification := None |}.

(** The values of the [respond] object, and the payload of
    [Bot.Event.Content]. *)
Record ContentRecord := {
  ce_dialogId : string;
  ce_sequence : N;
  ce_message : string;
  ce_originatorMetadata : OriginatorMetadata
}.

(** A [Timeout] object, as [setTimeout(cb, ms)] returns it: [timer_id] tells
    one object from another, and [cb] closes over [delay] and [attempt].  The
    field [_retryConnection] of the bot holds such an object, or [undefined]. *)
Record Timer := {
  timer_id : nat;
  timeout_ms : float;
  cb_delay : float;
  cb_attempt : nat
}.

Record Bot := {
  agentId : string;
  myConversations : gmap string TrackedConversation;
  _retryConnection : option Timer;
  _pingClock : bool
}.

Definition set_myConversations
    (f : gmap string TrackedConversation -> gmap string TrackedConversation)
    (b : Bot) : Bot :=
  {| agentId := agentId b; myConversations := f (myConversations b);
     _retryConnection := _retryConnection b; _pingClock := _pingClock b |}.

Definition set_retryConnection (t : option Timer) (b : Bot) : Bot :=
  {| agentId := agentId b; myConversations := myConversations b;
     _retryConnection := t; _pingClock := _pingClock b |}.

Definition set_pingClock (p : bool) (b : Bot) : Bot :=
  {| agentId := agentId b; myConversations := myConversations b;
     _retryConnection := _retryConnection b; _pingClock := p |}.

(** The state [init] leaves behind: [this.myConversations = {}]. *)
Definition init (agent : string) : Bot :=
  {| agentId := agent; myConversations := ∅;
     _retryConnection := None; _pingClock := false |}.

(** ** Effects *)

Inductive LogLevel := silly | info | warn | error.

Inductive ConversationField :=
| ParticipantsChange (type role : string)
| Skill (type skill : string)
| ConversationStateField (conversationState : string).

(** Calls on the transport, with their payloads. *)
Inductive TransportCall :=
| getUserProfile (consumerId : string)
| subscribeMessagingEvents (dialogId : string)
| publishEvent (dialogId : string) (event : Event)
| updateRingState (ring_id ring_state : string)
| updateConversationField (conversationId : string)
    (conversationField : list ConversationField)
| reconnect.

Inductive BotEvent :=
| CONTENT_NOTIFICATION (contentEvent : ContentRecord)
| CONVERSATION_NOTIFICATION (body : ConvBody)
| ROUTING_NOTIFICATION (body : RoutingBody).

Inductive Effect :=
| Log (level : LogLevel) (line : string)
| Call (c : TransportCall)
| Emit (e : BotEvent).

Global Instance Event_eq_dec : EqDecision Event.
Proof. solve_decision. Defined.
Global Instance LogLevel_eq_dec : EqDecision LogLevel.
Proof. solve_decision. Defined.
Global Instance ConversationField_eq_dec : EqDecision ConversationField.
Proof. solve_decision. Defined.
Global Instance TransportCall_eq_dec : EqDecision TransportCall.
Proof. solve_decision. Defined.

(** ** The handler monad *)

Inductive JsError := TypeError (msg : string).

Inductive Outcome (A : Type) :=
| Returned (a : A)
| Threw (e : JsError).
Arguments Returned {A} a.
Arguments Threw {A} e.

Definition M (A : Type) : Type := Bot -> Outcome A * Bot * list Effect.

Global Instance M_ret : MRet M := λ A a b, (Returned a, b, []).

Global Instance M_bind : MBind M := λ A B f m b,
  match m b with
  | (Returned a, b1, t1) =>
      match f a b1 with
      | (o, b2, t2) => (o, b2, t1 ++ t2)
      end
  | (Threw e, b1, t1) => (Threw e, b1, t1)
  end.

Definition throw {A} (e : JsError) : M A := λ b, (Threw e, b, []).
Definition this : M Bot := λ b, (Returned b, b, []).
Definition modify (f : Bot -> Bot) : M unit := λ b, (Returned (), f b, []).
Definition tell (e : Effect) : M unit := λ b, (Returned (), b, [e]).

Definition log (level : LogLevel) (line : string) : M unit := tell (Log level line).
Definition call (c : TransportCall) : M unit := tell (Call c).
Definition emit (e : BotEvent) : M unit := tell (Emit e).

(** [Array.prototype.forEach]: an exception from the callback ends the loop. *)
Fixpoint forEach {A} (l : list A) (f : A -> M unit) : M unit :=
  match l with
  | [] => mret ()
  | x :: l' => f x ;; forEach l' f
  end.

Definition outcome {A} (r : Outcome A * Bot * list Effect) : Outcome A := r.1.1.
Definition final {A} (r : Outcome A * Bot * list Effect) : Bot := r.1.2.
Definition trace {A} (r : Outcome A * Bot * list Effect) : list Effect := r.2.

(** ** Methods of [Bot] *)

(** [getRole (conversationDetails, pid = this.agentId)]:
    [participant && participant.role]. *)
Definition getRole (details : ConversationDetails) (pid : string) : option string :=
  match filter (λ p, participant_id p = pid) (participants details) with
  | [] => None
  | participant :: _ => participant_role participant
  end.

(** [!!this.myConversations[conversationId]]: every stored entry is an object,
    hence truthy. *)
Definition tracked (b : Bot) (conversationId : string) : bool :=
  bool_decide (is_Some (myConversations b !! conversationId)).

Definition _isInMyConversations (conversationId : string) : M bool :=
  b ← this; mret (tracked b conversationId).

Definition _addToMyConversations (conversationId : string) : M unit :=
  modify (set_myConversations (insert conversationId empty_object)).

Definition summary (n : LastContentEventNotification) : LastContentSummary :=
  {| ls_sequence := lce_sequence n;
     ls_serverTimestamp := lce_serverTimestamp n;
     ls_originatorId := lce_originatorId n;
     ls_originatorPId := lce_originatorPId n;
     ls_originatorMetadata_role := om_role (lce_originatorMetadata n);
     ls_event_type := event_type (lce_event n) |}.

Definition _updateMyConversation (conversationId : string) (result : ConvResult) : M unit :=
  b ← this;
  let _oldData := default empty_object (myConversations b !! conversationId) in
  let _newData :=
    {| tc_convId := Some (convId result);
       tc_conversationDetails := Some (conversationDetails result);
       tc_consumerProfile := tc_consumerProfile _oldData;
       tc_lastContentEventNotification := summary <$> lastContentEventNotification result |} in
  modify (set_myConversations (insert conversationId _newData)).

(** [getConsumerProfile]: [filter(...)[0].id] throws when no participant has
    the role CONSUMER; the method has no [return], so its value is
    [undefined]. *)
Definition getConsumerProfile (conversationId : string) (details : ConversationDetails)
    : M (option UserProfile) :=
  match filter (λ p, participant_role p = Some "CONSUMER") (participants details) with
  | [] => throw (TypeError "Cannot read property 'id' of undefined")
  | consumer :: _ =>
      call (getUserProfile (participant_id consumer));;
      mret None
  end.

(** The completion callback [(e, resp) => ...] handed to [getUserProfile]. *)
Definition getConsumerProfile_callback (conversationId : string)
    (e : option TransportError) (resp : UserProfile) : M unit :=
  match e with
  | Some _ => log error "[bot.js] getConsumerProfile"
  | None => log info "[bot.js] getConsumerProfile: conversation consumerProfile"
  end.

(** [this.myConversations[id].consumerProfile = v]; the entry exists when
    the assignment runs. *)
Definition set_consumerProfile (conversationId : string) (v : option UserProfile) : M unit :=
  b ← this;
  match myConversations b !! conversationId with
  | None => throw (TypeError "Cannot set property 'consumerProfile' of undefined")
  | Some tc =>
      modify (set_myConversations (insert conversationId
        {| tc_convId := tc_convId tc;
           tc_conversationDetails := tc_conversationDetails tc;
           tc_consumerProfile := v;
           tc_lastContentEventNotification := tc_lastContentEventNotification tc |}))
  end.

Definition markAsRead (conversationId : string) (sequenceArray : list N) : M unit :=
  call (publishEvent conversationId (AcceptStatusEvent "READ" sequenceArray)).

(** ** The [cqm.ExConversationChangeNotification] handler *)

(** The body of [body.changes.forEach]. *)
Definition onConversationChange (change : ConvChange) : M unit :=
  let result := cc_result change in
  log silly "[bot.js] cqm.ExConversationChangeNotification change";;
  if decide (cc_type change = "UPSERT") then
    tracked ← _isInMyConversations (convId result);
    (if negb tracked then
       _addToMyConversations (convId result);;
       log silly "[bot.js] added to myConversations";;
       profile ← getConsumerProfile (convId result) (conversationDetails result);
       set_consumerProfile (convId result) profile;;
       call (subscribeMessagingEvents (convId result))
     else mret ());;
    _updateMyConversation (convId result) result
  else if decide (cc_type change = "DELETE") then
    modify (set_myConversations (delete (convId result)));;
    log silly "[bot.js] removed from myConversations"
  else mret ().

Definition onExConversationChangeNotification (body : ConvBody) : M unit :=
  log info "[bot.js] cqm.ExConversationChangeNotification";;
  forEach (cb_changes body) onConversationChange;;
  emit (CONVERSATION_NOTIFICATION body).

(** ** The [ms.MessagingEventNotification] handler *)

(** The key [`${body.dialogId}-${sequence}`] of the [respond] object; a
    sequence number prints as its decimal digits. *)
Definition respond_key (dialogId : string) (sequence : N) : string :=
  dialogId +:+ "-" +:+ pretty sequence.

(** [o[k] = v] on an object with string keys: an existing key keeps its place,
    a new one goes last. *)
Fixpoint obj_set {V} (k : string) (v : V) (o : list (string * V)) : list (string * V) :=
  match o with
  | [] => [(k, v)]
  | (k', v') :: o' =>
      if decide (k' = k) then (k, v) :: o' else (k', v') :: obj_set k v o'
  end.

(** [delete o[k]]. *)
Definition obj_delete {V} (k : string) (o : list (string * V)) : list (string * V) :=
  filter (λ kv, kv.1 ≠ k) o.

(** A loop whose callback updates a local variable. *)
Fixpoint forEach_with {A R} (l : list A) (f : R -> A -> M R) (r : R) : M R :=
  match l with
  | [] => mret r
  | x :: l' => r' ← f r x; forEach_with l' f r'
  end.

(** The body of the first [body.changes.forEach]: the update of [respond]. *)
Definition onMessagingChange (body : MsgBody) (respond : list (string * ContentRecord))
    (change : MsgChange) : M (list (string * ContentRecord)) :=
  log silly "[bot.js] ms.MessagingEventNotification change";;
  tracked ← _isInMyConversations (mc_dialogId change);
  b ← this;
  if (tracked : bool) then
    let respond1 :=
      match mc_event change with
      | ContentEvent _ message =>
          if decide (mc_originatorId change ≠ agentId b) then
            obj_set (respond_key (mb_dialogId body) (mc_sequence change))
              {| ce_dialogId := mb_dialogId body;
                 ce_sequence := mc_sequence change;
                 ce_message := message;
                 ce_originatorMetadata := mc_originatorMetadata change |} respond
          else respond
      | _ => respond
      end in
    let respond2 :=
      match mc_event change with
      | AcceptStatusEvent _ sequenceList =>
          if decide (mc_originatorId change = agentId b) then
            foldl (λ r seq, obj_delete (respond_key (mb_dialogId body) seq) r)
              respond1 sequenceList
          else respond1
      | _ => respond1
      end in
    mret respond2
  else mret respond.

(** [this.getRole(this.myConversations[id].conversationDetails)], which
    dereferences [conversationDetails.participants]. *)
Definition getRole_in (dialogId : string) : M (option string) :=
  b ← this;
  match myConversations b !! dialogId with
  | None => throw (TypeError "Cannot read property 'conversationDetails' of undefined")
  | Some tc =>
      match tc_conversationDetails tc with
      | None => throw (TypeError "Cannot read property 'participants' of undefined")
      | Some details => mret (getRole details (agentId b))
      end
  end.

(** The body of [Object.keys(respond).forEach]. *)
Definition onPendingMessage (body : MsgBody) (entry : string * ContentRecord) : M unit :=
  let contentEvent := entry.2 in
  role ← getRole_in (mb_dialogId body);
  (if decide (role = Some "ASSIGNED_AGENT") then
     markAsRead (ce_dialogId contentEvent) [ce_sequence contentEvent]
   else mret ());;
  emit (CONTENT_NOTIFICATION contentEvent).

Definition onMessagingEventNotification (body : MsgBody) : M unit :=
  (if existsb (λ change, bool_decide (event_type (mc_event change) = "ChatStateEvent"))
        (mb_changes body)
   then log silly "[bot.js] ms.MessagingEventNotification"
   else log info "[bot.js] ms.MessagingEventNotification");;
  respond ← forEach_with (mb_changes body) (onMessagingChange body) [];
  b ← this;
  if tracked b (mb_dialogId body) then
    forEach respond (onPendingMessage body)
  else mret ().

(** ** Outbound operations *)

(** The value a method call evaluates to. *)
Inductive JsValue := js_false | js_undefined.

Definition truthy (v : JsValue) : bool :=
  match v with js_false => false | js_undefined => false end.

(** [/^(READER|MANAGER|ASSIGNED_AGENT)$/.test(role)]. *)
Definition valid_role (role : string) : bool :=
  bool_decide (role = "READER" ∨ role = "MANAGER" ∨ role = "ASSIGNED_AGENT").

Definition joinConversation (conversationId role : string) (announce : bool) : M JsValue :=
  if negb (valid_role role) then mret js_false
  else
    call (updateConversationField conversationId [ParticipantsChange "ADD" role]);;
    mret js_undefined.

Definition joinConversation_callback (conversationId role : string) (announce : bool)
    (e : option TransportError) : M unit :=
  match e with
  | Some _ => log error "[bot.js] joinConversation"
  | None =>
      log info "[bot.js] joinConversation: Joined conversation";;
      if announce && bool_decide (role ≠ "READER") then
        call (publishEvent conversationId (ContentEvent "text/plain" (role +:+ " joined")))
      else mret ()
  end.

Definition acceptWaitingConversations (data : RoutingBody) : M unit :=
  forEach (rb_changes data) (λ change,
    if decide (rc_type change = "UPSERT") then
      forEach (ringsDetails (rc_result change)) (λ ring,
        if decide (ringState ring = "WAITING") then
          call (updateRingState (ringId ring) "ACCEPTED")
        else mret ())
    else mret ()).

(** The callback of [updateRingState] only logs. *)
Definition acceptWaitingConversations_callback (e : option TransportError) : M unit :=
  match e with
  | Some _ => log error "[bot.js] acceptWaitingConversations"
  | None => log info "[bot.js] acceptWaitingConversations: Joined conversation"
  end.

(** ** Reconnection *)

Module botConfig.
Definition clockPingInterval : float := 300%float.
Definition reconnectAttempts : nat := 35.
Definition reconnectInterval : float := 5%float.
(** The literal [1.2] denotes the binary64 number nearest to it. *)
Definition reconnectRatio : float := 0x1.3333333333333p+0%float.
End botConfig.

(** The bot in its runtime.  [setTimeout] makes a new [Timeout] object each
    time, and a timeout stays pending until it fires or [clearTimeout] is
    called on it: assigning [this._retryConnection] anew leaves the timeout
    the field referred to pending.  [rt_timeouts] are the pending timeouts,
    oldest first; [rt_count] is the number of timeouts set so far, which is
    the id of the next one. *)
Record Runtime := {
  rt_bot : Bot;
  rt_timeouts : list Timer;
  rt_count : nat
}.

Definition on_bot (f : Bot -> Bot) (rt : Runtime) : Runtime :=
  {| rt_bot := f (rt_bot rt); rt_timeouts := rt_timeouts rt; rt_count := rt_count rt |}.

(** The runtime of a bot on which no timeout was set yet. *)
Definition start (b : Bot) : Runtime :=
  {| rt_bot := b; rt_timeouts := []; rt_count := 0 |}.

(** The ids of the pending timeouts were given out already. *)
Definition timeouts_wf (rt : Runtime) : Prop :=
  Forall (λ t, (timer_id t < rt_count rt)%nat) (rt_timeouts rt).

Definition timeout_of (id : nat) (delay : float) (attempt : nat) : Timer :=
  {| timer_id := id; timeout_ms := (delay * 1000)%float;
     cb_delay := delay; cb_attempt := attempt |}.

(** [setTimeout(cb, delay * 1000)], where [cb] closes over [delay] and
    [attempt]. *)
Definition setTimeout (delay : float) (attempt : nat) (rt : Runtime) : Timer * Runtime :=
  let t := timeout_of (rt_count rt) delay attempt in
  (t, {| rt_bot := rt_bot rt; rt_timeouts := rt_timeouts rt ++ [t];
         rt_count := S (rt_count rt) |}).

(** The pending timeouts but the one with this id. *)
Definition without (id : nat) (ts : list Timer) : list Timer :=
  filter (λ t, timer_id t ≠ id) ts.

(** [clearTimeout(handle)]: the timeout [handle] refers to is pending no
    more; nothing happens when [handle] is [undefined] or its timeout fired or
    was cleared before. *)
Definition clearTimeout (handle : option Timer) (rt : Runtime) : Runtime :=
  match handle with
  | None => rt
  | Some t =>
      {| rt_bot := rt_bot rt; rt_timeouts := without (timer_id t) (rt_timeouts rt);
         rt_count := rt_count rt |}
  end.

(** [_reconnect (delay, attempt)]:
    [this._retryConnection = setTimeout(cb, delay * 1000)]. *)
Definition _reconnect (delay : float) (attempt : nat) (rt : Runtime) : Runtime * list Effect :=
  let '(t, rt1) := setTimeout delay attempt rt in
  (on_bot (set_retryConnection (Some t)) rt1, [Log warn "[bot.js] reconnecting"]).

(** The callback of that timeout: [++attempt <= botConfig.reconnectAttempts]. *)
Definition reconnect_timeout (t : Timer) (rt : Runtime) : Runtime * list Effect :=
  let attempt := S (cb_attempt t) in
  if (attempt <=? botConfig.reconnectAttempts)%nat then
    let '(rt1, tr) := _reconnect (cb_delay t * botConfig.reconnectRatio)%float attempt rt in
    (rt1, Call reconnect :: tr)
  else (rt, [Call reconnect; Log error "[bot.js] failed to reconnect"]).

(** The ['closed'] handler: [clearInterval(this._pingClock)] stops the
    interval the field refers to, and [_reconnect()] sets a timeout without
    clearing one that is pending. *)
Definition onClosed (rt : Runtime) : Runtime * list Effect :=
  let '(rt1, tr) :=
    _reconnect botConfig.reconnectInterval 1 (on_bot (set_pingClock false) rt) in
  (rt1, Log warn "[bot.js] socket closed" :: tr).

(** The runtime lets the pending timeout with this id fire: the timeout is
    pending no more and its callback runs.  No pending timeout has the id:
    nothing can fire. *)
Definition fire (id : nat) (rt : Runtime) : option (Timer * Runtime * list Effect) :=
  match find (λ t, Nat.eqb (timer_id t) id) (rt_timeouts rt) with
  | None => None
  | Some t =>
      let '(rt1, tr) :=
        reconnect_timeout t
          {| rt_bot := rt_bot rt; rt_timeouts := without id (rt_timeouts rt);
             rt_count := rt_count rt |} in
      Some (t, rt1, tr)
  end.

(** The timeouts with these ids fire one after the other, while no other
    event comes in; the result lists the timeouts that fired. *)
Fixpoint fires (ids : list nat) (rt : Runtime) : option (list Timer * Runtime * list Effect) :=
  match ids with
  | [] => Some ([], rt, [])
  | id :: ids' =>
      match fire id rt with
      | None => None
      | Some (t, rt1, tr1) =>
          match fires ids' rt1 with
          | None => None
          | Some (ts, rt2, tr2) => Some (t :: ts, rt2, tr1 ++ tr2)
          end
      end
  end.

(** The timeouts a sequence of [n] attempts goes through, from
    [_reconnect (delay, attempt)] on, when its first timeout is the one
    numbered [id] and no other timeout is set meanwhile. *)
Fixpoint timeouts (n : nat) (id : nat) (delay : float) (attempt : nat) : list Timer :=
  match n with
  | 0 => []
  | S n' =>
      timeout_of id delay attempt
        :: timeouts n' (S id) (delay * botConfig.reconnectRatio)%float (S attempt)
  end.

(** The socket closes, and then the first [n] timeouts of the sequence this
    closure starts fire, while no other event comes in: these are the
    timeouts set since, numbered [rt_count rt] and up. *)
Definition closure_sequence (n : nat) (rt : Runtime)
    : option (list Timer * Runtime * list Effect) :=
  let '(rt1, tr1) := onClosed rt in
  match fires (seq (rt_count rt) n) rt1 with
  | None => None
  | Some (ts, rt2, tr2) => Some (ts, rt2, tr1 ++ tr2)
  end.

(** The timeout numbered [id], for [attempt], is the one set last, after the
    timeouts [old] that are still pending, and the one [_retryConnection]
    refers to. *)
Definition newest (old : list Timer) (id : nat) (delay : float) (attempt : nat)
    (rt : Runtime) : Prop :=
  rt_timeouts rt = old ++ [timeout_of id delay attempt] ∧
  rt_count rt = S id ∧
  Forall (λ t, (timer_id t < id)%nat) old ∧
  _retryConnection (rt_bot rt) = Some (timeout_of id delay attempt).

(** The rational number a finite binary64 float denotes. *)
Definition float_to_Q (f : float) : option Q :=
  match Prim2SF f with
  | S754_zero _ => Some 0%Q
  | S754_finite s m e =>
      let mz := if s then Z.neg m else Z.pos m in
      Some (if (0 <=? e)%Z then inject_Z (mz * 2 ^ e)
            else Qmake mz (Z.to_pos (2 ^ (- e))))
  | _ => None
  end.

(** [interval * ratio^(n-1)], exactly. *)
Definition geometric (interval ratio : Q) (n : nat) : Q :=
  (interval * ratio ^ (Z.of_nat n - 1))%Q.

(** [f] denotes [q] up to a relative error of [2^-48]. *)
Definition close_to (f : float) (q : Q) : bool :=
  match float_to_Q f with
  | Some x => Qle_bool (Qabs (x - q) * inject_Z (2 ^ 48)) (Qabs q)
  | None => false
  end.

(** The number the binary64 constant [1.2] denotes. *)
Definition reconnectRatio_value : Q := 5404319552844595 # 4503599627370496.

(** Each delay is [5 * 1.2^(attempt-1)] up to rounding, and the timeout is
    set to the delay times 1000. *)
Definition within_rounding (ts : list Timer) : bool :=
  forallb (λ t, close_to (cb_delay t) (geometric 5 (6 # 5) (cb_attempt t)) &&
                PrimFloat.eqb (timeout_ms t) (cb_delay t * 1000)%float) ts.

(** ** Observations on a trace *)

Definition content_notifications (t : list Effect) : list ContentRecord :=
  omap (λ e, match e with Emit (CONTENT_NOTIFICATION ce) => Some ce | _ => None end) t.

(** The content notifications emitted for sequence number [s]. *)
Definition emitted_for (s : N) (t : list Effect) : list ContentRecord :=
  filter (λ ce, ce_sequence ce = s) (content_notifications t).

Definition calls (t : list Effect) : list TransportCall :=
  omap (λ e, match e with Call c => Some c | _ => None end) t.

(** The [markAsRead] calls for message [s] of conversation [dialogId]. *)
Definition read_receipts_for (dialogId : string) (s : N) (t : list Effect)
    : list TransportCall :=
  filter (λ c, c = publishEvent dialogId (AcceptStatusEvent "READ" [s])) (calls t).

Definition profile_fetches (t : list Effect) : list string :=
  omap (λ c, match c with getUserProfile consumerId => Some consumerId | _ => None end)
    (calls t).

Definition subscriptions (t : list Effect) : list string :=
  omap (λ c, match c with subscribeMessagingEvents d => Some d | _ => None end) (calls t).

Definition ring_updates (t : list Effect) : list (string * string) :=
  omap (λ c, match c with updateRingState r s => Some (r, s) | _ => None end) (calls t).

Definition reconnects (t : list Effect) : nat :=
  length (filter (λ c, c = reconnect) (calls t)).

Definition logged (level : LogLevel) (t : list Effect) : list string :=
  omap (λ e, match e with
             | Log l line => if decide (l = level) then Some line else None
             | _ => None
             end) t.

(** ** What the transport delivers *)

Inductive Input :=
| ExConversationChangeNotification (body : ConvBody)
| MessagingEventNotification (body : MsgBody)
| UserProfileResult (conversationId : string) (e : option TransportError)
    (resp : UserProfile).

Definition handle (i : Input) : M unit :=
  match i with
  | ExConversationChangeNotification body => onExConversationChangeNotification body
  | MessagingEventNotification body => onMessagingEventNotification body
  | UserProfileResult conversationId e resp =>
      getConsumerProfile_callback conversationId e resp
  end.

(** The handlers run one after the other, each to completion; an exception
    that escapes a handler ends the session. *)
Definition deliver (inputs : list Input) : M unit := forEach inputs handle.

(** The conversation changes of a series of deliveries, in order. *)
Definition conversation_changes (inputs : list Input) : list ConvChange :=
  flat_map (λ i, match i with
                 | ExConversationChangeNotification body => cb_changes body
                 | _ => []
                 end) inputs.

Definition is_upsert_of (conversationId : string) (c : ConvChange) : bool :=
  bool_decide (cc_type c = "UPSERT") && bool_decide (convId (cc_result c) = conversationId).

Definition is_delete_of (conversationId : string) (c : ConvChange) : bool :=
  bool_decide (cc_type c = "DELETE") && bool_decide (convId (cc_result c) = conversationId).

Definition no_delete_of (conversationId : string) (changes : list ConvChange) : Prop :=
  Forall (λ c, is_delete_of conversationId c = false) changes.

(** An upsert for the conversation was received and no delete for it came
    after it. *)
Definition upserted_and_not_deleted (conversationId : string) (changes : list ConvChange) : Prop :=
  ∃ before upsert after,
    changes = before ++ upsert :: after ∧
    is_upsert_of conversationId upsert = true ∧
    no_delete_of conversationId after.

Definition has_consumer (details : ConversationDetails) : bool :=
  bool_decide (Exists (λ p, participant_role p = Some "CONSUMER") (participants details)).

(** ** Classification of the changes of a messaging batch *)

(** A content event, not by the bot, with sequence number [s]. *)
Definition content_from_other (b : Bot) (s : N) (c : MsgChange) : bool :=
  match mc_event c with
  | ContentEvent _ _ =>
      bool_decide (mc_originatorId c ≠ agentId b) && bool_decide (mc_sequence c = s)
  | _ => false
  end.

(** A read receipt by the bot itself whose sequence list covers [s]. *)
Definition read_receipt_by_me (b : Bot) (s : N) (c : MsgChange) : bool :=
  match mc_event c with
  | AcceptStatusEvent _ sequenceList =>
      bool_decide (mc_originatorId c = agentId b) && bool_decide (s ∈ sequenceList)
  | _ => false
  end.

(** A batch on a tracked conversation: the dialog id the batch is keyed by is
    tracked and is the dialog id of each of its changes. *)
Definition on_tracked_conversation (b : Bot) (body : MsgBody) : bool :=
  tracked b (mb_dialogId body) &&
  forallb (λ c, bool_decide (mc_dialogId c = mb_dialogId body)) (mb_changes body).

(** The update of [respond] by one change of a tracked conversation, as a
    function. *)
Definition respond_step (b : Bot) (body : MsgBody)
    (respond : list (string * ContentRecord)) (change : MsgChange)
    : list (string * ContentRecord) :=
  if tracked b (mc_dialogId change) then
    match mc_event change with
    | ContentEvent _ message =>
        if decide (mc_originatorId change ≠ agentId b) then
          obj_set (respond_key (mb_dialogId body) (mc_sequence change))
            {| ce_dialogId := mb_dialogId body;
               ce_sequence := mc_sequence change;
               ce_message := message;
               ce_originatorMetadata := mc_originatorMetadata change |} respond
        else respond
    | AcceptStatusEvent _ sequenceList =>
        if decide (mc_originatorId change = agentId b) then
          foldl (λ r seq, obj_delete (respond_key (mb_dialogId body) seq) r)
            respond sequenceList
        else respond
    | _ => respond
    end
  else respond.

(** [s] is pending in [respond]. *)
Definition pending (dialogId : string) (s : N) (respond : list (string * ContentRecord)) : Prop :=
  respond_key dialogId s ∈ respond.*1.

(** Every key of [respond] occurs once and is the key of its record. *)
Definition respond_wf (dialogId : string) (respond : list (string * ContentRecord)) : Prop :=
  NoDup respond.*1 ∧
  Forall (λ kv, kv.1 = respond_key dialogId (ce_sequence kv.2) ∧
                ce_dialogId kv.2 = dialogId) respond.

(** The rings [acceptWaitingConversations] accepts: the WAITING rings of the
    UPSERT changes, in order. *)
Definition waiting_rings (data : RoutingBody) : list Ring :=
  filter (λ ring, ringState ring = "WAITING")
    (flat_map (λ change, ringsDetails (rc_result change))
       (filter (λ change, rc_type change = "UPSERT") (rb_changes data))).

(** The entry [_updateMyConversation] stores: [_newData]. *)
Definition refreshed (_oldData : TrackedConversation) (result : ConvResult)
    : TrackedConversation :=
  {| tc_convId := Some (convId result);
     tc_conversationDetails := Some (conversationDetails result);
     tc_consumerProfile := tc_consumerProfile _oldData;
     tc_lastContentEventNotification := summary <$> lastContentEventNotification result |}.

(** The participants [getConsumerProfile] filters out. *)
Definition consumers (details : ConversationDetails) : list Participant :=
  filter (λ p, participant_role p = Some "CONSUMER") (participants details).

(** The last change about a conversation decides: [true] after an upsert,
    [false] after a delete, [before] when no change is about it. *)
Definition last_word (conversationId : string) (changes : list ConvChange) (before : bool)
    : bool :=
  foldl (λ acc c, if is_upsert_of conversationId c then true
                  else if is_delete_of conversationId c then false else acc)
    before changes.

(** A computation keeps an invariant of the bot, however it ends. *)
Definition preserves {A} (P : Bot -> Prop) (m : M A) : Prop :=
  ∀ b, P b → P (final (m b)).

(** No tracked conversation has a consumer profile. *)
Definition no_profile (b : Bot) : Prop :=
  ∀ id tc, myConversations b !! id = Some tc → tc_consumerProfile tc = None.

(** [myConversations] after the handling of one conversation change, whether
    it returned or threw. *)
Definition conversations_after (change : ConvChange) (b : Bot)
    : gmap string TrackedConversation :=
  let result := cc_result change in
  let m := myConversations b in
  if decide (cc_type change = "UPSERT") then
    match m !! convId result with
    | Some tc => <[convId result := refreshed tc result]> m
    | None =>
        if has_consumer (conversationDetails result)
        then <[convId result := refreshed empty_object result]> m
        else <[convId result := empty_object]> m
    end
  else if decide (cc_type change = "DELETE") then delete (convId result) m
  else m.

(** A computation leaves the bot as it found it, however it ends. *)
Definition readonly {A} (m : M A) : Prop := ∀ b, final (m b) = b.

(** ** Runs of the handlers, as functions *)

(** What the handling of one pending message adds to the trace when the
    bot's role in the conversation is [role]. *)
Definition pending_message_trace (role : option string) (entry : string * ContentRecord)
    : list Effect :=
  (if decide (role = Some "ASSIGNED_AGENT")
   then [Call (publishEvent (ce_dialogId entry.2)
                 (AcceptStatusEvent "READ" [ce_sequence entry.2]))]
   else []) ++ [Emit (CONTENT_NOTIFICATION entry.2)].

(** The log lines of the first part of the messaging handler. *)
Definition messaging_log (body : MsgBody) : list Effect :=
  (if existsb (λ change, bool_decide (event_type (mc_event change) = "ChatStateEvent"))
        (mb_changes body)
   then Log silly "[bot.js] ms.MessagingEventNotification"
   else Log info "[bot.js] ms.MessagingEventNotification")
  :: flat_map (λ _, [Log silly "[bot.js] ms.MessagingEventNotification change"])
       (mb_changes body).

(** The [respond] object once every change of the batch was looked at. *)
Definition respond_of (b : Bot) (body : MsgBody) : list (string * ContentRecord) :=
  foldl (respond_step b body) [] (mb_changes body).

(** Every tracked conversation has its detail snapshot. *)
Definition has_details (b : Bot) : Prop :=
  ∀ id tc, myConversations b !! id = Some tc → is_Some (tc_conversationDetails tc).

(** ** Sample data *)

(** An upsert of conversation [C1] whose only participant is the bot, without
    a role. *)
Definition upsert_without_consumer : ConvChange :=
  {| cc_type := "UPSERT";
     cc_result :=
       {| convId := "C1";
          conversationDetails :=
            {| participants := [ {| participant_id := "bot"; participant_role := None |} ] |};
          lastContentEventNotification := None |} |}.

(** An upsert of conversation [C1] with a consumer and the bot as assigned
    agent. *)
Definition upsert_with_consumer : ConvChange :=
  {| cc_type := "UPSERT";
     cc_result :=
       {| convId := "C1";
          conversationDetails :=
            {| participants :=
                 [ {| participant_id := "u1"; participant_role := Some "CONSUMER" |};
                   {| participant_id := "bot"; participant_role := Some "ASSIGNED_AGENT" |} ] |};
          lastContentEventNotification := None |} |}.

Definition delete_C1 : ConvChange :=
  {| cc_type := "DELETE"; cc_result := cc_result upsert_with_consumer |}.

(** A successful profile lookup after the first upsert of [C1]. *)
Definition upsert_then_profile : list Input :=
  [ ExConversationChangeNotification {| cb_changes := [upsert_with_consumer] |};
    UserProfileResult "C1" None {| profile_json := "{firstName: Ann}" |} ].

(** The session after the first upsert of [C1], in which the bot is the
    assigned agent. *)
Definition tracking_C1 : Bot :=
  final (deliver [ExConversationChangeNotification {| cb_changes := [upsert_with_consumer] |}]
           (init "bot")).

(** Message 7 of [C1], by the consumer, and the bot's own receipt for it. *)
Definition content_7 : MsgChange :=
  {| mc_dialogId := "C1"; mc_sequence := 7; mc_originatorId := "u1";
     mc_originatorMetadata := {| om_id := "u1"; om_role := "CONSUMER" |};
     mc_event := ContentEvent "text/plain" "hello" |}.

Definition receipt_7 : MsgChange :=
  {| mc_dialogId := "C1"; mc_sequence := 8; mc_originatorId := "bot";
     mc_originatorMetadata := {| om_id := "bot"; om_role := "ASSIGNED_AGENT" |};
     mc_event := AcceptStatusEvent "READ" [7%N] |}.

Definition content_batch : MsgBody :=
  {| mb_dialogId := "C1"; mb_changes := [content_7] |}.

Definition content_then_receipt : MsgBody :=
  {| mb_dialogId := "C1"; mb_changes := [content_7; receipt_7] |}.

Definition receipt_then_content : MsgBody :=
  {| mb_dialogId := "C1"; mb_changes := [receipt_7; content_7] |}.

(** Message 7 again after its receipt. *)
Definition content_receipt_content : MsgBody :=
  {| mb_dialogId := "C1"; mb_changes := [content_7; receipt_7; content_7] |}.

(** ** The constructor's configuration *)

(** A value of the configuration file: a string or a number. *)
Inductive ConfigValue :=
| cv_string (s : string)
| cv_number (n : Z).

(** [process.env.NAME]: a string, or [undefined]. *)
Definition env_var (env : gmap string string) (name : string) : option ConfigValue :=
  cv_string <$> env !! name.

Definition js_truthy (v : option ConfigValue) : bool :=
  match v with
  | None => false
  | Some (cv_string s) => bool_decide (s ≠ "")
  | Some (cv_number n) => bool_decide (n ≠ 0%Z)
  end.

(** [a || b]. *)
Definition js_or (a b : option ConfigValue) : option ConfigValue :=
  if js_truthy a then a else b.

(** The object literal [_config] of the constructor, a property per line. *)
Definition _config_literal (env : gmap string string) (config : gmap string ConfigValue)
    : list (string * option ConfigValue) :=
  [ ("accountId", js_or (env_var env "LP_ACCOUNTID")
                    (js_or (env_var env "LP_ACCOUNT") (config !! "accountId")));
    ("username", js_or (env_var env "LP_USERNAME")
                   (js_or (env_var env "LP_USER") (config !! "username")));
    ("password", js_or (env_var env "LP_PASSWORD") (config !! "password"));
    ("token", js_or (env_var env "LP_TOKEN") (config !! "token"));
    ("userId", js_or (env_var env "LP_USERID") (config !! "userId"));
    ("assertion", js_or (env_var env "LP_ASSERTION") (config !! "assertion"));
    ("appKey", js_or (env_var env "LP_APPKEY") (config !! "appKey"));
    ("secret", js_or (env_var env "LP_SECRET") (config !! "secret"));
    ("accessToken", js_or (env_var env "LP_ACCESSTOKEN") (config !! "accessToken"));
    ("accessTokenSecret",
       js_or (env_var env "LP_ACCESSTOKENSECRET") (config !! "accessTokenSecret"));
    ("csdsDomain", js_or (env_var env "LP_CSDSDOMAIN") (config !! "csdsDomain"));
    ("requestTimeout", js_or (env_var env "LP_REQUESTTIMEOUT") (config !! "requestTimeout"));
    ("errorCheckInterval",
       js_or (env_var env "LP_ERRORCHECKINTERVAL") (config !! "errorCheckInterval"));
    ("apiVersion", js_or (env_var env "LP_APIVERSION") (config !! "apiVersion")) ].

(** [Object.keys(_config).forEach(key => _config[key] === undefined && delete
    _config[key])]: what is handed to the [Agent] constructor. *)
Definition _config (env : gmap string string) (config : gmap string ConfigValue)
    : list (string * ConfigValue) :=
  omap (λ kv, (kv.1,.) <$> kv.2) (_config_literal env config).

(** The fields of the configuration with the environment variables that
    override them, in the order they are tried. *)
Definition config_sources : list (string * list string) :=
  [ ("accountId", ["LP_ACCOUNTID"; "LP_ACCOUNT"]);
    ("username", ["LP_USERNAME"; "LP_USER"]);
    ("password", ["LP_PASSWORD"]);
    ("token", ["LP_TOKEN"]);
    ("userId", ["LP_USERID"]);
    ("assertion", ["LP_ASSERTION"]);
    ("appKey", ["LP_APPKEY"]);
    ("secret", ["LP_SECRET"]);
    ("accessToken", ["LP_ACCESSTOKEN"]);
    ("accessTokenSecret", ["LP_ACCESSTOKENSECRET"]);
    ("csdsDomain", ["LP_CSDSDOMAIN"]);
    ("requestTimeout", ["LP_REQUESTTIMEOUT"]);
    ("errorCheckInterval", ["LP_ERRORCHECKINTERVAL"]);
    ("apiVersion", ["LP_APIVERSION"]) ].

(** The first of the variables [names] that is set to a non-empty string. *)
Fixpoint first_set (env : gmap string string) (names : list string) : option string :=
  match names with
  | [] => None
  | name :: names' =>
      match env !! name with
      | Some v => if decide (v = "") then first_set env names' else Some v
      | None => first_set env names'
      end
  end.

(** The value a field ends up with. *)
Definition config_value (env : gmap string string) (config : gmap string ConfigValue)
    (key : string) (names : list string) : option ConfigValue :=
  match first_set env names with
  | Some v => Some (cv_string v)
  | None => config !! key
  end.

(** An environment variable that is not set, or set to the empty string. *)
Definition unset_or_empty (env : gmap string string) (name : string) : Prop :=
  env !! name = None ∨ env !! name = Some "".

(** A sample environment and configuration file. *)
Definition sample_env : gmap string string :=
  {[ "LP_ACCOUNT" := "12345678"; "LP_PASSWORD" := "" ]}.

Definition sample_file : gmap string ConfigValue :=
  {[ "accountId" := cv_number 98765432; "username" := cv_string "TestBot";
     "password" := cv_string ""; "logLevel" := cv_string "debug" ]}.

(** ** The sample bots' listeners ([manager.js], [reader.js]) *)

(** [!role] for a role that is a string or [undefined]. *)
Definition no_role (role : option string) : bool :=
  match role with
  | None => true
  | Some r => bool_decide (r = "")
  end.

(** The body of [event.changes.forEach] of the [CONVERSATION_NOTIFICATION]
    listeners: [if (!bot.getRole(change.result.conversationDetails))
    { bot.joinConversation(change.result.convId, role) }], where the third
    argument, [announce], is left out. *)
Definition join_if_absent (role : string) (change : ConvChange) : M unit :=
  b ← this;
  if no_role (getRole (conversationDetails (cc_result change)) (agentId b)) then
    joinConversation (convId (cc_result change)) role false;; mret ()
  else mret ().

Definition manager_onConversationNotification (event : ConvBody) : M unit :=
  log info "[manager.js] CONVERSATION_NOTIFICATION";;
  forEach (cb_changes event) (join_if_absent "MANAGER").

Definition reader_onConversationNotification (event : ConvBody) : M unit :=
  log info "[reader.js] CONVERSATION_NOTIFICATION";;
  forEach (cb_changes event) (join_if_absent "READER").

(** The changes of a batch in whose participants the bot has no role. *)
Definition changes_without_me (b : Bot) (event : ConvBody) : list ConvChange :=
  filter (λ change, no_role (getRole (conversationDetails (cc_result change)) (agentId b)) = true)
    (cb_changes event).

(** ** The ['connected'] handler *)

(** What the handler does besides changing the bot: its log lines, the event
    it emits, the interval it sets and the four requests it sends. *)
Inductive ConnectedEffect :=
| connected_log (level : LogLevel) (line : string)
| emit_CONNECTED (message : string)
| setInterval_getClock (ms : float)
| subscribeAgentsState
| setAgentState (availability : string)
| subscribeExConversations (convState : list string) (agentIds : option (list string))
| subscribeRoutingTasks.

(** [this.on('connected', ...)], for a bot constructed with [initialState] and
    [subscribeAllConversations]: [clearTimeout(this._retryConnection)] first,
    which clears the timeout set last and no other; [_pingClock] tells that
    the interval the field refers to is running. *)
Definition onConnected (initialState : string) (subscribeAllConversations : bool)
    (message : string) (rt : Runtime) : Runtime * list ConnectedEffect :=
  (on_bot (set_pingClock true) (clearTimeout (_retryConnection (rt_bot rt)) rt),
   [ connected_log info "[bot.js] connected";
     emit_CONNECTED message;
     setInterval_getClock (botConfig.clockPingInterval * 1000)%float;
     subscribeAgentsState;
     setAgentState initialState;
     subscribeExConversations ["OPEN"]
       (if subscribeAllConversations then None else Some [agentId (rt_bot rt)]);
     subscribeRoutingTasks;
     connected_log info "[bot.js] agentId" ]).

(** The delay reached from [delay] by [k] multiplications by the ratio. *)
Fixpoint delay_after (k : nat) (delay : float) : float :=
  match k with
  | 0 => delay
  | S k' => delay_after k' (delay * botConfig.reconnectRatio)%float
  end.

(** The timeouts grow from above [previous] on and stay below [limit]. *)
Fixpoint growing_below (limit : float) (previous : float) (ts : list Timer) : bool :=
  match ts with
  | [] => true
  | t :: ts' =>
      PrimFloat.ltb previous (timeout_ms t) && PrimFloat.ltb (timeout_ms t) limit &&
      growing_below limit (timeout_ms t) ts'
  end.

(** ** Further observations *)

Definition emitted (t : list Effect) : list BotEvent :=
  omap (λ e, match e with Emit ev => Some ev | _ => None end) t.

(** The record the messaging handler keeps for a content event. *)
Definition record_of (body : MsgBody) (change : MsgChange) (message : string) : ContentRecord :=
  {| ce_dialogId := mb_dialogId body;
     ce_sequence := mc_sequence change;
     ce_message := message;
     ce_originatorMetadata := mc_originatorMetadata change |}.

(** [ce] is the record of a content event of the batch, by somebody else, on
    a change whose own dialog id is tracked. *)
Definition stems_from_batch (b : Bot) (body : MsgBody) (ce : ContentRecord) : Prop :=
  ∃ change contentType message,
    change ∈ mb_changes body ∧
    tracked b (mc_dialogId change) = true ∧
    mc_event change = ContentEvent contentType message ∧
    mc_originatorId change ≠ agentId b ∧
    ce = record_of body change message.

(** A [markAsRead] call for one message of the conversation. *)
Definition is_read_receipt (dialogId : string) (c : TransportCall) : Prop :=
  ∃ s, c = publishEvent dialogId (AcceptStatusEvent "READ" [s]).

(** The batch without the changes whose own dialog id is not tracked. *)
Definition tracked_changes (b : Bot) (body : MsgBody) : MsgBody :=
  {| mb_dialogId := mb_dialogId body;
     mb_changes := filter (λ c, tracked b (mc_dialogId c) = true) (mb_changes body) |}.

(** The session after the first upsert of [C1] threw for want of a
    consumer. *)
Definition half_tracking_C1 : Bot :=
  final (onConversationChange upsert_without_consumer (init "bot")).

(** The messaging subscriptions for one conversation. *)
Definition subscriptions_for (conversationId : string) (t : list Effect) : list string :=
  filter (λ d, d = conversationId) (subscriptions t).

(** An effect that is no emitted event. *)
Definition silent (e : Effect) : Prop :=
  match e with Emit _ => False | _ => True end.

(** A second upsert of [C1], with a last content event. *)
Definition upsert_again : ConvChange :=
  {| cc_type := "UPSERT";
     cc_result :=
       {| convId := "C1";
          conversationDetails := conversationDetails (cc_result upsert_with_consumer);
          lastContentEventNotification :=
            Some {| lce_sequence := 7; lce_serverTimestamp := 1500000000000;
                    lce_originatorId := "u1"; lce_originatorPId := "p1";
                    lce_originatorMetadata := {| om_id := "u1"; om_role := "CONSUMER" |};
                    lce_event := ContentEvent "text/plain" "hello" |} |} |}.

(** An upsert of another conversation. *)
Definition upsert_C2 : ConvChange :=
  {| cc_type := "UPSERT";
     cc_result :=
       {| convId := "C2";
          conversationDetails := conversationDetails (cc_result upsert_with_consumer);
          lastContentEventNotification := None |} |}.

(** ** Receipts and roles: further sample data *)

(** A receipt of the bot itself with status [READ] whose sequence list covers
    [s]: a read receipt in the narrow sense.  The handler does not look at
    the status, see [read_receipt_by_me]. *)
Definition READ_receipt_by_me (b : Bot) (s : N) (c : MsgChange) : bool :=
  match mc_event c with
  | AcceptStatusEvent status sequenceList =>
      bool_decide (status = "READ") && bool_decide (mc_originatorId c = agentId b) &&
      bool_decide (s ∈ sequenceList)
  | _ => false
  end.

(** The bot's own receipt for message 7 with status [ACCEPT]. *)
Definition accept_7 : MsgChange :=
  {| mc_dialogId := "C1"; mc_sequence := 8; mc_originatorId := "bot";
     mc_originatorMetadata := {| om_id := "bot"; om_role := "ASSIGNED_AGENT" |};
     mc_event := AcceptStatusEvent "ACCEPT" [7%N] |}.

Definition content_then_accept : MsgBody :=
  {| mb_dialogId := "C1"; mb_changes := [content_7; accept_7] |}.

(** An upsert of conversation [C1] in which the bot is a manager. *)
Definition upsert_as_manager : ConvChange :=
  {| cc_type := "UPSERT";
     cc_result :=
       {| convId := "C1";
          conversationDetails :=
            {| participants :=
                 [ {| participant_id := "u1"; participant_role := Some "CONSUMER" |};
                   {| participant_id := "bot"; participant_role := Some "MANAGER" |} ] |};
          lastContentEventNotification := None |} |}.

(** The session after that upsert. *)
Definition managing_C1 : Bot :=
  final (deliver [ExConversationChangeNotification {| cb_changes := [upsert_as_manager] |}]
           (init "bot")).

(** * Properties *)

(** ** Running handler code *)

Ltac run_M :=
  cbv beta iota zeta delta
    [mbind M_bind mret M_ret this modify tell log call emit throw
     outcome final trace fst snd negb].

Section Loops.
Context {A : Type}.

(** A loop whose callback returns and leaves the bot alone does so too; its
    trace is the callbacks' traces in order. *)
Lemma forEach_stateless (f : A -> M unit) (g : A -> list Effect) (l : list A) (b : Bot) :
  (∀ x, f x b = (Returned (), b, g x)) →
  forEach l f b = (Returned (), b, flat_map g l).
Proof.
  intros Hf. induction l as [|x l IH]; [reflexivity|].
  simpl. unfold mbind, M_bind. rewrite Hf, IH. reflexivity.
Qed.

Lemma forEach_with_stateless {R} (f : R -> A -> M R) (step : R -> A -> R)
    (g : A -> list Effect) (l : list A) (r : R) (b : Bot) :
  (∀ r x, f r x b = (Returned (step r x), b, g x)) →
  forEach_with l f r b = (Returned (foldl step r l), b, flat_map g l).
Proof.
  intros Hf. revert r. induction l as [|x l IH]; intros r; [reflexivity|].
  simpl. unfold mbind, M_bind. rewrite Hf, IH. reflexivity.
Qed.
End Loops.

Lemma bind_returned {A B} (m : M A) (f : A -> M B) (b : Bot) (v : B) :
  outcome ((m ≫= f) b) = Returned v →
  ∃ a, outcome (m b) = Returned a ∧
       outcome (f a (final (m b))) = Returned v ∧
       final ((m ≫= f) b) = final (f a (final (m b))) ∧
       trace ((m ≫= f) b) = trace (m b) ++ trace (f a (final (m b))).
Proof.
  unfold mbind, M_bind, outcome, final, trace.
  destruct (m b) as [[[a|e] b1] t1]; simpl; [|discriminate].
  destruct (f a b1) as [[o b2] t2] eqn:Hf; simpl. intros ->.
  exists a. rewrite Hf. done.
Qed.

Lemma bind_preserves {A B} (P : Bot -> Prop) (m : M A) (f : A -> M B) :
  preserves P m → (∀ a, preserves P (f a)) → preserves P (m ≫= f).
Proof.
  intros Hm Hf b HP. specialize (Hm b HP). revert Hm.
  unfold mbind, M_bind, final. destruct (m b) as [[[a|e] b1] t1]; simpl; [|done].
  intros HP1. specialize (Hf a b1 HP1). revert Hf. unfold final.
  destruct (f a b1) as [[o b2] t2]. simpl. done.
Qed.

Lemma forEach_preserves {A} (P : Bot -> Prop) (f : A -> M unit) (l : list A) :
  (∀ x, preserves P (f x)) → preserves P (forEach l f).
Proof.
  intros Hf. induction l as [|x l IH]; [intros b HP; exact HP|].
  cbn [forEach]. apply bind_preserves; [apply Hf|]. intros _. exact IH.
Qed.

Lemma bind_readonly {A B} (m : M A) (f : A -> M B) :
  readonly m → (∀ a, readonly (f a)) → readonly (m ≫= f).
Proof.
  intros Hm Hf b. specialize (Hm b). revert Hm.
  unfold mbind, M_bind, final. destruct (m b) as [[[a|e] b1] t1]; simpl; [|done].
  intros ->. specialize (Hf a b). revert Hf. unfold final.
  destruct (f a b) as [[o b2] t2]. simpl. done.
Qed.

Lemma forEach_readonly {A} (f : A -> M unit) (l : list A) :
  (∀ x, readonly (f x)) → readonly (forEach l f).
Proof.
  intros Hf. induction l as [|x l IH]; [intros b; reflexivity|].
  cbn [forEach]. apply bind_readonly; [apply Hf|]. intros _. exact IH.
Qed.

Lemma readonly_preserves {A} (P : Bot -> Prop) (m : M A) :
  readonly m → preserves P m.
Proof. intros Hm b HP. by rewrite Hm. Qed.

(** A loop that returns ran every callback, each from the state the one
    before left. *)
Lemma forEach_returned_cons {A} (f : A -> M unit) (x : A) (l : list A) (b : Bot) :
  outcome (forEach (x :: l) f b) = Returned () →
  outcome (f x b) = Returned () ∧
  outcome (forEach l f (final (f x b))) = Returned () ∧
  final (forEach (x :: l) f b) = final (forEach l f (final (f x b))) ∧
  trace (forEach (x :: l) f b) = trace (f x b) ++ trace (forEach l f (final (f x b))).
Proof.
  cbn [forEach]. intros H. apply bind_returned in H as ([] & H1 & H2 & H3 & H4). done.
Qed.

(** ** Outbound operations *)

(** C7: for every conversation id and every role other than READER, MANAGER
    and ASSIGNED_AGENT, [joinConversation] makes no transport call (its trace
    is empty and the bot is unchanged) and returns [false], a falsy value. *)
Theorem joinConversation_rejects_invalid_role
    (conversationId role : string) (announce : bool) (b : Bot) :
  role ∉ ["READER"; "MANAGER"; "ASSIGNED_AGENT"] →
  joinConversation conversationId role announce b = (Returned js_false, b, []) ∧
  truthy js_false = false.
Proof.
  intros Hrole. split; [|reflexivity].
  unfold joinConversation, valid_role.
  rewrite bool_decide_eq_false_2; [reflexivity|].
  intros H. apply Hrole. rewrite !elem_of_cons. tauto.
Qed.

Lemma joinConversation_rejects_invalid_role_witness :
  joinConversation "c1" "HACKER" true (init "bot") = (Returned js_false, init "bot", []) ∧
  truthy js_false = false.
Proof.
  apply (joinConversation_rejects_invalid_role "c1" "HACKER" true (init "bot")).
  intros H. repeat (apply elem_of_cons in H as [H|H]; [discriminate H|]).
  by apply elem_of_nil in H.
Defined.

(** A valid role does reach the transport. *)
Lemma joinConversation_valid_role (conversationId role : string) (announce : bool) (b : Bot) :
  role ∈ ["READER"; "MANAGER"; "ASSIGNED_AGENT"] →
  joinConversation conversationId role announce b =
    (Returned js_undefined, b,
     [Call (updateConversationField conversationId [ParticipantsChange "ADD" role])]).
Proof.
  intros Hrole. unfold joinConversation, valid_role.
  rewrite bool_decide_eq_true_2; [reflexivity|].
  rewrite !elem_of_cons, elem_of_nil in Hrole. tauto.
Qed.

Lemma accept_rings_trace (rings : list Ring) (b : Bot) :
  forEach rings (λ ring,
    if decide (ringState ring = "WAITING") then
      call (updateRingState (ringId ring) "ACCEPTED")
    else mret ()) b =
  (Returned (), b,
   map (λ ring, Call (updateRingState (ringId ring) "ACCEPTED"))
     (filter (λ ring, ringState ring = "WAITING") rings)).
Proof.
  rewrite (forEach_stateless _
    (λ ring, if decide (ringState ring = "WAITING")
             then [Call (updateRingState (ringId ring) "ACCEPTED")] else [])).
  - f_equal. induction rings as [|ring rings IH]; [reflexivity|].
    cbn [flat_map]. rewrite filter_cons, IH.
    destruct (decide (ringState ring = "WAITING")); reflexivity.
  - intros ring. destruct (decide (ringState ring = "WAITING")); reflexivity.
Qed.

(** C8: for every routing batch, [acceptWaitingConversations] returns with
    the bot unchanged, and what it does is exactly one [updateRingState] call
    to ACCEPTED per ring that is WAITING inside an UPSERT change, in order;
    rings in another state and rings of other changes get none. *)
Theorem acceptWaitingConversations_calls (data : RoutingBody) (b : Bot) :
  acceptWaitingConversations data b =
    (Returned (), b,
     map (λ ring, Call (updateRingState (ringId ring) "ACCEPTED")) (waiting_rings data)).
Proof.
  unfold acceptWaitingConversations, waiting_rings.
  rewrite (forEach_stateless _
    (λ change, if decide (rc_type change = "UPSERT")
               then map (λ ring, Call (updateRingState (ringId ring) "ACCEPTED"))
                      (filter (λ ring, ringState ring = "WAITING")
                         (ringsDetails (rc_result change)))
               else [])).
  - f_equal. induction (rb_changes data) as [|change changes IH]; [reflexivity|].
    cbn [flat_map]. rewrite filter_cons, IH.
    destruct (decide (rc_type change = "UPSERT")); [|reflexivity].
    cbn [flat_map]. rewrite filter_app, map_app. reflexivity.
  - intros change. destruct (decide (rc_type change = "UPSERT")); [|reflexivity].
    apply accept_rings_trace.
Qed.

(** The scenario of two rings, one WAITING and one ACCEPTED. *)
Example acceptWaitingConversations_two_rings :
  ring_updates (trace (acceptWaitingConversations
    {| rb_changes := [
         {| rc_type := "UPSERT";
            rc_result := {| rr_conversationId := "c1";
                            ringsDetails := [ {| ringId := "r1"; ringState := "WAITING" |};
                                              {| ringId := "r2"; ringState := "ACCEPTED" |} ] |} |} ] |}
    (init "bot"))) = [("r1", "ACCEPTED")].
Proof. reflexivity. Qed.

(** ** Conversation changes *)

Lemma has_consumer_consumers (details : ConversationDetails) :
  has_consumer details = true ↔ consumers details ≠ [].
Proof.
  unfold has_consumer, consumers. rewrite bool_decide_eq_true, Exists_exists.
  split.
  - intros (p & Hp & Hrole) Hnil.
    assert (p ∈ filter (λ p, participant_role p = Some "CONSUMER") (participants details))
      as Hin by (apply list_elem_of_filter; done).
    rewrite Hnil in Hin. by apply elem_of_nil in Hin.
  - destruct (filter _ _) as [|p l] eqn:Hf; [done|]. intros _.
    assert (p ∈ filter (λ p, participant_role p = Some "CONSUMER") (participants details))
      as Hin by (rewrite Hf; left).
    apply list_elem_of_filter in Hin as [Hrole Hp]. eauto.
Qed.

Lemma tracked_true (b : Bot) (id : string) :
  tracked b id = true ↔ is_Some (myConversations b !! id).
Proof. unfold tracked. apply bool_decide_eq_true. Qed.

Lemma tracked_false (b : Bot) (id : string) :
  tracked b id = false ↔ myConversations b !! id = None.
Proof.
  unfold tracked. rewrite bool_decide_eq_false, eq_None_not_Some. done.
Qed.

(** The first upsert of a conversation with a consumer among its
    participants. *)
Lemma first_upsert (result : ConvResult) (b : Bot) (consumer : Participant)
    (others : list Participant) :
  tracked b (convId result) = false →
  consumers (conversationDetails result) = consumer :: others →
  onConversationChange {| cc_type := "UPSERT"; cc_result := result |} b =
    (Returned (),
     set_myConversations (insert (convId result) (refreshed empty_object result)) b,
     [Log silly "[bot.js] cqm.ExConversationChangeNotification change";
      Log silly "[bot.js] added to myConversations";
      Call (getUserProfile (participant_id consumer));
      Call (subscribeMessagingEvents (convId result))]).
Proof.
  intros Htr Hcons. unfold onConversationChange, getConsumerProfile.
  unfold consumers in Hcons. cbn [cc_type cc_result]. rewrite Hcons.
  rewrite decide_True by done.
  unfold _isInMyConversations, _addToMyConversations, set_consumerProfile,
    _updateMyConversation. run_M. rewrite Htr. run_M.
  unfold set_myConversations, refreshed. cbn [myConversations].
  rewrite !lookup_insert_eq. run_M. cbn [myConversations].
  rewrite !lookup_insert_eq, !insert_insert_eq. reflexivity.
Qed.

(** The first upsert of a conversation without a consumer: the entry is
    created as [{}], then [getConsumerProfile] throws. *)
Lemma first_upsert_without_consumer (result : ConvResult) (b : Bot) :
  tracked b (convId result) = false →
  consumers (conversationDetails result) = [] →
  onConversationChange {| cc_type := "UPSERT"; cc_result := result |} b =
    (Threw (TypeError "Cannot read property 'id' of undefined"),
     set_myConversations (insert (convId result) empty_object) b,
     [Log silly "[bot.js] cqm.ExConversationChangeNotification change";
      Log silly "[bot.js] added to myConversations"]).
Proof.
  intros Htr Hcons. unfold onConversationChange, getConsumerProfile.
  unfold consumers in Hcons. cbn [cc_type cc_result]. rewrite Hcons.
  rewrite decide_True by done.
  unfold _isInMyConversations, _addToMyConversations. run_M. rewrite Htr.
  reflexivity.
Qed.

(** An upsert of a conversation that is tracked already only refreshes its
    entry. *)
Lemma later_upsert (result : ConvResult) (b : Bot) (tc : TrackedConversation) :
  myConversations b !! convId result = Some tc →
  onConversationChange {| cc_type := "UPSERT"; cc_result := result |} b =
    (Returned (),
     set_myConversations (insert (convId result) (refreshed tc result)) b,
     [Log silly "[bot.js] cqm.ExConversationChangeNotification change"]).
Proof.
  intros Hlook. unfold onConversationChange. cbn [cc_type cc_result].
  rewrite decide_True by done.
  unfold _isInMyConversations, _updateMyConversation, tracked. run_M.
  rewrite Hlook. rewrite bool_decide_eq_true_2 by eauto. run_M.
  rewrite Hlook. reflexivity.
Qed.

Lemma delete_change (result : ConvResult) (b : Bot) :
  onConversationChange {| cc_type := "DELETE"; cc_result := result |} b =
    (Returned (),
     set_myConversations (delete (convId result)) b,
     [Log silly "[bot.js] cqm.ExConversationChangeNotification change";
      Log silly "[bot.js] removed from myConversations"]).
Proof. reflexivity. Qed.

Lemma other_change (change : ConvChange) (b : Bot) :
  cc_type change ≠ "UPSERT" → cc_type change ≠ "DELETE" →
  onConversationChange change b =
    (Returned (), b, [Log silly "[bot.js] cqm.ExConversationChangeNotification change"]).
Proof.
  intros Hu Hd. unfold onConversationChange.
  rewrite !decide_False by done. reflexivity.
Qed.

Lemma has_consumer_false (details : ConversationDetails) :
  has_consumer details = false ↔ consumers details = [].
Proof.
  destruct (has_consumer details) eqn:H.
  - apply has_consumer_consumers in H. split; [done|]. intros H'. done.
  - split; [|done]. intros _. destruct (consumers details) eqn:Hc; [done|].
    assert (has_consumer details = true) as H'
      by (apply has_consumer_consumers; rewrite Hc; done).
    congruence.
Qed.

Lemma conversation_change_final (change : ConvChange) (b : Bot) :
  final (onConversationChange change b) =
    set_myConversations (λ _, conversations_after change b) b.
Proof.
  destruct change as [type result]. unfold conversations_after. cbn [cc_type cc_result].
  destruct (decide (type = "UPSERT")) as [->|Hu].
  - destruct (myConversations b !! convId result) as [tc|] eqn:Hlook.
    + rewrite (later_upsert result b tc Hlook). reflexivity.
    + apply tracked_false in Hlook.
      destruct (has_consumer (conversationDetails result)) eqn:Hc.
      * apply has_consumer_consumers in Hc.
        destruct (consumers (conversationDetails result)) as [|consumer others] eqn:Hcs;
          [done|].
        rewrite (first_upsert result b consumer others Hlook Hcs). reflexivity.
      * apply has_consumer_false in Hc.
        rewrite (first_upsert_without_consumer result b Hlook Hc). reflexivity.
  - destruct (decide (type = "DELETE")) as [->|Hd].
    + rewrite delete_change. reflexivity.
    + rewrite other_change by done. destruct b; reflexivity.
Qed.

(** An upsert is handled to its end exactly when the conversation is tracked
    already or a CONSUMER participant is present. *)
Lemma upsert_returns_iff (result : ConvResult) (b : Bot) :
  outcome (onConversationChange {| cc_type := "UPSERT"; cc_result := result |} b) = Returned () ↔
  tracked b (convId result) = true ∨ has_consumer (conversationDetails result) = true.
Proof.
  destruct (tracked b (convId result)) eqn:Htr.
  - apply tracked_true in Htr as [tc Hlook].
    rewrite (later_upsert result b tc Hlook). split; [by left|done].
  - destruct (has_consumer (conversationDetails result)) eqn:Hc.
    + apply has_consumer_consumers in Hc.
      destruct (consumers (conversationDetails result)) as [|consumer others] eqn:Hcs;
        [done|].
      rewrite (first_upsert result b consumer others Htr Hcs). split; [by right|done].
    + apply has_consumer_false in Hc.
      rewrite (first_upsert_without_consumer result b Htr Hc).
      split; [discriminate|]. intros [?|?]; discriminate.
Qed.

(** C9: for an upsert of a conversation that is not tracked yet and has no
    participant with role CONSUMER, the handling throws a [TypeError] (the
    [.id] of the missing first element of the filtered participants) after
    the entry was created as an empty object and before any transport call;
    and an upsert is handled to its end exactly when the conversation is
    tracked already or a CONSUMER participant is present. *)
Theorem upsert_throws_without_consumer (change : ConvChange) (b : Bot) :
  cc_type change = "UPSERT" →
  let id := convId (cc_result change) in
  let details := conversationDetails (cc_result change) in
  let r := onConversationChange change b in
  (tracked b id = false → has_consumer details = false →
     outcome r = Threw (TypeError "Cannot read property 'id' of undefined") ∧
     myConversations (final r) !! id = Some empty_object ∧
     calls (trace r) = []) ∧
  (outcome r = Returned () ↔ tracked b id = true ∨ has_consumer details = true).
Proof.
  destruct change as [type result]. cbn [cc_type cc_result]. intros ->.
  split; [|apply upsert_returns_iff].
  intros Htr Hc. apply has_consumer_false in Hc.
  rewrite (first_upsert_without_consumer result b Htr Hc).
  split; [reflexivity|]. split; [|reflexivity].
  unfold final, set_myConversations. cbn. apply lookup_insert_eq.
Qed.

Lemma upsert_throws_without_consumer_witness :
  let r := onConversationChange upsert_without_consumer (init "bot") in
  outcome r = Threw (TypeError "Cannot read property 'id' of undefined") ∧
  myConversations (final r) !! "C1" = Some empty_object ∧
  calls (trace r) = [].
Proof.
  apply (proj1 (upsert_throws_without_consumer upsert_without_consumer (init "bot") eq_refl));
    reflexivity.
Defined.

(** C4, where the code departs from it: the first upsert of conversation [C1]
    whose participants include no CONSUMER creates the entry, then throws:
    no profile fetch and no messaging-event subscription is issued, and the
    entry is left without details. *)
Theorem first_upsert_without_consumer_subscribes_nothing :
  let r := onConversationChange upsert_without_consumer (init "bot") in
  tracked (init "bot") "C1" = false ∧
  outcome r = Threw (TypeError "Cannot read property 'id' of undefined") ∧
  profile_fetches (trace r) = [] ∧
  subscriptions (trace r) = [] ∧
  myConversations (final r) !! "C1" = Some empty_object.
Proof. vm_compute. done. Qed.

(** With a CONSUMER among the participants, the first upsert of a
    conversation creates its entry and issues one profile fetch (for the first
    such participant) and one messaging-event subscription. *)
Lemma first_upsert_with_consumer_once (result : ConvResult) (b : Bot) :
  tracked b (convId result) = false →
  has_consumer (conversationDetails result) = true →
  let r := onConversationChange {| cc_type := "UPSERT"; cc_result := result |} b in
  outcome r = Returned () ∧
  profile_fetches (trace r) =
    participant_id <$> take 1 (consumers (conversationDetails result)) ∧
  length (profile_fetches (trace r)) = 1 ∧
  subscriptions (trace r) = [convId result] ∧
  myConversations (final r) = <[convId result := refreshed empty_object result]> (myConversations b).
Proof.
  intros Htr Hc. apply has_consumer_consumers in Hc.
  destruct (consumers (conversationDetails result)) as [|consumer others] eqn:Hcs; [done|].
  cbn zeta. rewrite (first_upsert result b consumer others Htr Hcs). done.
Qed.

(** An upsert of a conversation that is tracked issues no call at all and
    replaces the entry by the refreshed one, which keeps the profile field. *)
Lemma later_upsert_refreshes_only (result : ConvResult) (b : Bot) (tc : TrackedConversation) :
  myConversations b !! convId result = Some tc →
  let r := onConversationChange {| cc_type := "UPSERT"; cc_result := result |} b in
  outcome r = Returned () ∧
  calls (trace r) = [] ∧
  myConversations (final r) = <[convId result := refreshed tc result]> (myConversations b).
Proof. intros Hlook. cbn zeta. rewrite (later_upsert result b tc Hlook). done. Qed.

(** ** Messaging events: the shape of a run *)

Lemma onMessagingChange_step (body : MsgBody) (respond : list (string * ContentRecord))
    (change : MsgChange) (b : Bot) :
  onMessagingChange body respond change b =
    (Returned (respond_step b body respond change), b,
     [Log silly "[bot.js] ms.MessagingEventNotification change"]).
Proof.
  unfold onMessagingChange, respond_step, _isInMyConversations. run_M.
  destruct (tracked b (mc_dialogId change)); [|reflexivity].
  destruct (mc_event change); reflexivity.
Qed.

Lemma onMessagingEventNotification_run (body : MsgBody) (b : Bot) :
  onMessagingEventNotification body b =
    if tracked b (mb_dialogId body) then
      let r := forEach (respond_of b body) (onPendingMessage body) b in
      (outcome r, final r, messaging_log body ++ trace r)
    else (Returned (), b, messaging_log body).
Proof.
  unfold onMessagingEventNotification, respond_of, messaging_log.
  pose proof (forEach_with_stateless (onMessagingChange body) (respond_step b body)
    (λ _, [Log silly "[bot.js] ms.MessagingEventNotification change"])
    (mb_changes body) [] b (λ r x, onMessagingChange_step body r x b)) as Hloop.
  destruct (existsb _ (mb_changes body)); run_M; rewrite Hloop;
    (destruct (tracked b (mb_dialogId body));
      [destruct (forEach _ _ b) as [[o b'] t]; reflexivity
      |cbn [app]; rewrite app_nil_r; reflexivity]).
Qed.

Lemma getRole_in_readonly (dialogId : string) : readonly (getRole_in dialogId).
Proof.
  intros b. unfold getRole_in. run_M.
  destruct (myConversations b !! dialogId) as [tc|]; [|reflexivity].
  destruct (tc_conversationDetails tc); reflexivity.
Qed.

Lemma onPendingMessage_readonly (body : MsgBody) (entry : string * ContentRecord) :
  readonly (onPendingMessage body entry).
Proof.
  unfold onPendingMessage. apply bind_readonly; [apply getRole_in_readonly|].
  intros role. apply bind_readonly; [|intros _ b; reflexivity].
  destruct (decide (role = Some "ASSIGNED_AGENT")); intros b; reflexivity.
Qed.

(** The messaging handler never changes the bot. *)
Lemma onMessagingEventNotification_readonly (body : MsgBody) :
  readonly (onMessagingEventNotification body).
Proof.
  intros b. rewrite onMessagingEventNotification_run.
  destruct (tracked b (mb_dialogId body)); [|reflexivity].
  cbn zeta. unfold final at 1. cbn [fst snd].
  apply forEach_readonly. apply onPendingMessage_readonly.
Qed.

(** With a detail snapshot, a pending message is handled to its end. *)
Lemma onPendingMessage_run (body : MsgBody) (entry : string * ContentRecord) (b : Bot)
    (tc : TrackedConversation) (details : ConversationDetails) :
  myConversations b !! mb_dialogId body = Some tc →
  tc_conversationDetails tc = Some details →
  onPendingMessage body entry b =
    (Returned (), b, pending_message_trace (getRole details (agentId b)) entry).
Proof.
  intros Hlook Hdet. unfold onPendingMessage, getRole_in, pending_message_trace, markAsRead.
  run_M. rewrite Hlook, Hdet.
  destruct (decide (getRole details (agentId b) = Some "ASSIGNED_AGENT")); reflexivity.
Qed.

(** ** The consumer profile *)

Lemma onConversationChange_no_profile (change : ConvChange) :
  preserves no_profile (onConversationChange change).
Proof.
  intros b Hb. rewrite conversation_change_final.
  unfold no_profile, final, set_myConversations, conversations_after. cbn.
  intros id tc.
  destruct (decide (cc_type change = "UPSERT")).
  - destruct (myConversations b !! convId (cc_result change)) as [old|] eqn:Hold.
    + rewrite lookup_insert. case_decide; [|apply Hb].
      intros [= <-]. cbn. eapply Hb, Hold.
    + destruct (has_consumer _); rewrite lookup_insert; (case_decide; [|apply Hb]);
        intros [= <-]; reflexivity.
  - destruct (decide (cc_type change = "DELETE")); [|apply Hb].
    rewrite lookup_delete. case_decide; [done|apply Hb].
Qed.

Lemma handle_no_profile (i : Input) : preserves no_profile (handle i).
Proof.
  destruct i as [body|body|id e resp]; cbn [handle].
  - unfold onExConversationChangeNotification.
    apply bind_preserves; [apply readonly_preserves; intros b; reflexivity|]. intros _.
    apply bind_preserves; [|intros _; apply readonly_preserves; intros b; reflexivity].
    apply forEach_preserves, onConversationChange_no_profile.
  - apply readonly_preserves, onMessagingEventNotification_readonly.
  - apply readonly_preserves. intros b. destruct e; reflexivity.
Qed.

(** C1, where the code departs from it: whatever notifications and profile
    lookup results the session has handled since its start, successful
    lookups included, the profile field of every tracked conversation is
    empty; the lookup result is logged and dropped. *)
Theorem consumerProfile_never_cached (agent : string) (inputs : list Input) :
  no_profile (final (deliver inputs (init agent))).
Proof.
  apply (forEach_preserves no_profile handle inputs handle_no_profile).
  intros id tc Hlook. unfold init in Hlook. cbn in Hlook.
  rewrite lookup_empty in Hlook. discriminate.
Qed.

(** The first upsert of [C1] followed by the successful completion of its
    profile lookup: the fetch was issued for the consumer, the result was
    logged, and the profile field is still empty. *)
Example consumerProfile_empty_after_lookup :
  let r := deliver upsert_then_profile (init "bot") in
  outcome r = Returned () ∧
  profile_fetches (trace r) = ["u1"] ∧
  logged info (trace r) =
    ["[bot.js] cqm.ExConversationChangeNotification";
     "[bot.js] getConsumerProfile: conversation consumerProfile"] ∧
  tc_consumerProfile <$> (myConversations (final r) !! "C1") = Some None.
Proof. vm_compute. done. Qed.

(** A failed lookup is logged at error level and changes nothing. *)
Lemma getConsumerProfile_failure_logged (conversationId : string) (e : TransportError)
    (resp : UserProfile) (b : Bot) :
  getConsumerProfile_callback conversationId (Some e) resp b =
    (Returned (), b, [Log error "[bot.js] getConsumerProfile"]).
Proof. reflexivity. Qed.

(** ** Tracking *)

Lemma tracked_set (m : gmap string TrackedConversation) (b : Bot) (id : string) :
  tracked (set_myConversations (λ _, m) b) id = bool_decide (is_Some (m !! id)).
Proof. reflexivity. Qed.

(** What one conversation change does to the tracking of [id], whether its
    handling returned or threw. *)
Lemma conversation_change_tracked (change : ConvChange) (b : Bot) (id : string) :
  tracked (final (onConversationChange change b)) id =
    if is_upsert_of id change then true
    else if is_delete_of id change then false
    else tracked b id.
Proof.
  rewrite conversation_change_final, tracked_set.
  unfold conversations_after, is_upsert_of, is_delete_of, tracked.
  destruct (decide (cc_type change = "UPSERT")) as [Hu|Hu].
  - rewrite (bool_decide_eq_true_2 _ Hu). cbn [andb].
    assert (cc_type change ≠ "DELETE") as Hd by (rewrite Hu; done).
    rewrite (bool_decide_eq_false_2 _ Hd). cbn [andb].
    destruct (decide (convId (cc_result change) = id)) as [Hid|Hid].
    + rewrite (bool_decide_eq_true_2 _ Hid). apply bool_decide_eq_true_2.
      destruct (myConversations b !! convId (cc_result change));
        [|destruct (has_consumer _)]; rewrite Hid, lookup_insert_eq; eauto.
    + rewrite (bool_decide_eq_false_2 _ Hid).
      destruct (myConversations b !! convId (cc_result change));
        [|destruct (has_consumer _)]; rewrite lookup_insert_ne by done; reflexivity.
  - rewrite (bool_decide_eq_false_2 _ Hu). cbn [andb].
    destruct (decide (cc_type change = "DELETE")) as [Hd|Hd].
    + rewrite (bool_decide_eq_true_2 _ Hd). cbn [andb].
      destruct (decide (convId (cc_result change) = id)) as [Hid|Hid].
      * rewrite (bool_decide_eq_true_2 _ Hid). apply bool_decide_eq_false_2.
        rewrite Hid, lookup_delete_eq. by intros [? ?].
      * rewrite (bool_decide_eq_false_2 _ Hid), lookup_delete_ne by done. reflexivity.
    + rewrite (bool_decide_eq_false_2 _ Hd). reflexivity.
Qed.

Lemma changes_tracked (changes : list ConvChange) (b : Bot) (id : string) :
  outcome (forEach changes onConversationChange b) = Returned () →
  tracked (final (forEach changes onConversationChange b)) id =
    last_word id changes (tracked b id).
Proof.
  revert b. induction changes as [|c changes IH]; intros b Hret; [reflexivity|].
  apply forEach_returned_cons in Hret as (_ & Hrest & -> & _).
  rewrite (IH _ Hrest), conversation_change_tracked. reflexivity.
Qed.

Lemma handle_tracked (i : Input) (b : Bot) (id : string) :
  outcome (handle i b) = Returned () →
  tracked (final (handle i b)) id =
    last_word id (conversation_changes [i]) (tracked b id).
Proof.
  destruct i as [body|body|conv e resp]; cbn [handle conversation_changes flat_map].
  - rewrite app_nil_r. unfold onExConversationChangeNotification. intros Hret.
    apply bind_returned in Hret as ([] & _ & Hret & -> & _).
    change (final (log info "[bot.js] cqm.ExConversationChangeNotification" b)) with b in *.
    apply bind_returned in Hret as ([] & Hloop & _ & -> & _).
    change (final (emit (CONVERSATION_NOTIFICATION body) ?b')) with b'.
    apply changes_tracked, Hloop.
  - intros _. rewrite onMessagingEventNotification_readonly. reflexivity.
  - intros _. destruct e; reflexivity.
Qed.

Lemma last_word_app (id : string) (l1 l2 : list ConvChange) (before : bool) :
  last_word id (l1 ++ l2) before = last_word id l2 (last_word id l1 before).
Proof. unfold last_word. apply foldl_app. Qed.

Lemma deliver_tracked (inputs : list Input) (b : Bot) (id : string) :
  outcome (deliver inputs b) = Returned () →
  tracked (final (deliver inputs b)) id =
    last_word id (conversation_changes inputs) (tracked b id).
Proof.
  unfold deliver. revert b. induction inputs as [|i inputs IH]; intros b Hret; [reflexivity|].
  apply forEach_returned_cons in Hret as (Hi & Hrest & -> & _).
  rewrite (IH _ Hrest), (handle_tracked i b id Hi).
  unfold conversation_changes. cbn [flat_map]. rewrite app_nil_r, last_word_app.
  reflexivity.
Qed.

Lemma upsert_is_no_delete (id : string) (c : ConvChange) :
  is_upsert_of id c = true → is_delete_of id c = false.
Proof.
  unfold is_upsert_of, is_delete_of. rewrite andb_true_iff, bool_decide_eq_true.
  intros [Hu _]. rewrite bool_decide_eq_false_2; [reflexivity|]. rewrite Hu. done.
Qed.

Lemma upserted_cons (id : string) (c : ConvChange) (cs : list ConvChange) :
  upserted_and_not_deleted id (c :: cs) ↔
  (is_upsert_of id c = true ∧ no_delete_of id cs) ∨ upserted_and_not_deleted id cs.
Proof.
  split.
  - intros ([|x before] & u & after & Heq & Hu & Hnd); simplify_eq/=.
    + left. done.
    + right. exists before, u, after. done.
  - intros [[Hu Hnd]|(before & u & after & -> & Hu & Hnd)].
    + exists [], c, cs. done.
    + exists (c :: before), u, after. done.
Qed.

(** The declarative reading of [last_word]. *)
Lemma last_word_spec (id : string) (changes : list ConvChange) (before : bool) :
  last_word id changes before = true ↔
  upserted_and_not_deleted id changes ∨ (before = true ∧ no_delete_of id changes).
Proof.
  revert before. induction changes as [|c cs IH]; intros before.
  - cbn. split.
    + intros ->. right. split; [done|constructor].
    + intros [([|??] & ? & ? & ? & _)|[-> _]]; done.
  - change (last_word id (c :: cs) before)
      with (last_word id cs (if is_upsert_of id c then true
                             else if is_delete_of id c then false else before)).
    rewrite IH, upserted_cons. unfold no_delete_of. rewrite Forall_cons.
    destruct (is_upsert_of id c) eqn:Hu.
    + rewrite (upsert_is_no_delete id c Hu). unfold no_delete_of. tauto.
    + destruct (is_delete_of id c); unfold no_delete_of; intuition congruence.
Qed.

Lemma messaging_log_only_logs (body : MsgBody) :
  content_notifications (messaging_log body) = [] ∧ calls (messaging_log body) = [].
Proof.
  unfold messaging_log, content_notifications, calls.
  destruct (existsb _ _); cbn [omap];
    (induction (mb_changes body) as [|c cs IH]; [done|exact IH]).
Qed.

(** A batch keyed by a conversation that is not tracked is only logged. *)
Lemma untracked_batch_ignored (body : MsgBody) (b : Bot) :
  tracked b (mb_dialogId body) = false →
  onMessagingEventNotification body b = (Returned (), b, messaging_log body).
Proof. intros Htr. rewrite onMessagingEventNotification_run, Htr. reflexivity. Qed.

(** C5: handling a delete change removes the conversation's entry; a
    messaging-event notification for a conversation that is not tracked is
    handled without any content notification, transport call or change of
    state; and after any series of notifications that were handled to their
    end since the start of the session, a conversation is tracked exactly when
    an upsert for it was received that no delete for it followed. *)
Theorem tracked_iff_upserted_and_not_deleted
    (agent : string) (inputs : list Input) (id : string)
    (change : ConvChange) (b : Bot) (body : MsgBody) (b' : Bot) :
  outcome (deliver inputs (init agent)) = Returned () →
  cc_type change = "DELETE" →
  convId (cc_result change) = id →
  mb_dialogId body = id →
  tracked b' id = false →
  (tracked (final (deliver inputs (init agent))) id = true ↔
     upserted_and_not_deleted id (conversation_changes inputs)) ∧
  (outcome (onConversationChange change b) = Returned () ∧
   myConversations (final (onConversationChange change b)) !! id = None) ∧
  (outcome (onMessagingEventNotification body b') = Returned () ∧
   final (onMessagingEventNotification body b') = b' ∧
   content_notifications (trace (onMessagingEventNotification body b')) = [] ∧
   calls (trace (onMessagingEventNotification body b')) = []).
Proof.
  intros Hret Htype Hid Hbody Htr. split; [|split].
  - rewrite (deliver_tracked inputs (init agent) id Hret), last_word_spec.
    change (tracked (init agent) id) with false. intuition congruence.
  - destruct change as [type result]. cbn [cc_type cc_result] in *. subst type id.
    rewrite delete_change. split; [reflexivity|].
    unfold final, set_myConversations. cbn. apply lookup_delete_eq.
  - rewrite untracked_batch_ignored by (rewrite Hbody; exact Htr).
    pose proof (messaging_log_only_logs body) as [? ?]. done.
Qed.

Lemma tracked_iff_upserted_and_not_deleted_witness :
  let inputs := [ExConversationChangeNotification {| cb_changes := [upsert_with_consumer] |}] in
  let b := final (deliver inputs (init "bot")) in
  let b' := final (onConversationChange delete_C1 b) in
  (tracked b "C1" = true ↔ upserted_and_not_deleted "C1" (conversation_changes inputs)) ∧
  (outcome (onConversationChange delete_C1 b) = Returned () ∧
   myConversations b' !! "C1" = None) ∧
  (outcome (onMessagingEventNotification content_batch b') = Returned () ∧
   final (onMessagingEventNotification content_batch b') = b' ∧
   content_notifications (trace (onMessagingEventNotification content_batch b')) = [] ∧
   calls (trace (onMessagingEventNotification content_batch b')) = []).
Proof.
  apply (tracked_iff_upserted_and_not_deleted "bot"
    [ExConversationChangeNotification {| cb_changes := [upsert_with_consumer] |}] "C1"
    delete_C1 _ content_batch); reflexivity.
Defined.

(** ** Detail snapshots *)

Lemma forEach_returned_invariant {A} (P : Bot -> Prop) (f : A -> M unit) (l : list A) :
  (∀ x b, P b → outcome (f x b) = Returned () → P (final (f x b))) →
  ∀ b, P b → outcome (forEach l f b) = Returned () → P (final (forEach l f b)).
Proof.
  intros Hf. induction l as [|x l IH]; intros b HP Hret; [exact HP|].
  apply forEach_returned_cons in Hret as (Hx & Hrest & -> & _). auto.
Qed.

Lemma onConversationChange_has_details (change : ConvChange) (b : Bot) :
  has_details b →
  outcome (onConversationChange change b) = Returned () →
  has_details (final (onConversationChange change b)).
Proof.
  intros Hb Hret. rewrite conversation_change_final.
  unfold has_details, final, set_myConversations, conversations_after. cbn.
  intros id tc. destruct change as [type result]. cbn [cc_type cc_result] in *.
  destruct (decide (type = "UPSERT")) as [->|Hu].
  - apply upsert_returns_iff in Hret.
    destruct (myConversations b !! convId result) as [old|] eqn:Hold.
    + rewrite lookup_insert. case_decide; [|apply Hb]. intros [= <-]. cbn. eauto.
    + destruct Hret as [Htr|Hc].
      * apply tracked_true in Htr as [? Htr]. congruence.
      * rewrite Hc, lookup_insert. case_decide; [|apply Hb]. intros [= <-]. cbn. eauto.
  - destruct (decide (type = "DELETE")); [|apply Hb].
    rewrite lookup_delete. case_decide; [done|apply Hb].
Qed.

Lemma handle_has_details (i : Input) (b : Bot) :
  has_details b → outcome (handle i b) = Returned () → has_details (final (handle i b)).
Proof.
  intros Hb. destruct i as [body|body|conv e resp]; cbn [handle].
  - unfold onExConversationChangeNotification. intros Hret.
    apply bind_returned in Hret as ([] & _ & Hret & -> & _).
    change (final (log info "[bot.js] cqm.ExConversationChangeNotification" b)) with b in *.
    apply bind_returned in Hret as ([] & Hloop & _ & -> & _).
    change (final (emit (CONVERSATION_NOTIFICATION body) ?b')) with b'.
    revert Hloop. apply forEach_returned_invariant; [|exact Hb].
    intros c b'. apply onConversationChange_has_details.
  - intros _. by rewrite onMessagingEventNotification_readonly.
  - intros _. destruct e; exact Hb.
Qed.

(** In a session all of whose notifications were handled to their end, every
    tracked conversation has its detail snapshot. *)
Lemma tracked_entries_have_details (agent : string) (inputs : list Input) :
  outcome (deliver inputs (init agent)) = Returned () →
  has_details (final (deliver inputs (init agent))).
Proof.
  apply (forEach_returned_invariant has_details handle inputs handle_has_details).
  intros id tc Hlook. unfold init in Hlook. cbn in Hlook.
  rewrite lookup_empty in Hlook. discriminate.
Qed.

(** ** The [respond] object *)

Section Objects.
Context {V : Type}.
Implicit Types (o : list (string * V)) (k : string) (v : V).

Lemma obj_set_keys k v o k' : k' ∈ (obj_set k v o).*1 ↔ k' = k ∨ k' ∈ o.*1.
Proof.
  induction o as [|[k0 v0] o IH]; cbn [obj_set].
  - rewrite fmap_cons, elem_of_cons. cbn. tauto.
  - destruct (decide (k0 = k)) as [->|Hne]; rewrite !fmap_cons, !elem_of_cons; cbn.
    + tauto.
    + rewrite IH. tauto.
Qed.

Lemma obj_set_NoDup k v o : NoDup o.*1 → NoDup (obj_set k v o).*1.
Proof.
  induction o as [|[k0 v0] o IH]; cbn [obj_set].
  - intros _. apply NoDup_singleton.
  - rewrite fmap_cons, NoDup_cons. cbn. intros [Hk0 Hnd].
    destruct (decide (k0 = k)) as [->|Hne]; rewrite fmap_cons, NoDup_cons; cbn.
    + done.
    + split; [|by apply IH]. rewrite obj_set_keys. intros [?|?]; done.
Qed.

Lemma obj_set_Forall (P : string * V -> Prop) k v o :
  P (k, v) → Forall P o → Forall P (obj_set k v o).
Proof.
  intros Hkv. induction o as [|[k0 v0] o IH]; cbn [obj_set].
  - intros _. by constructor.
  - rewrite Forall_cons. intros [H0 Ho].
    destruct (decide (k0 = k)); constructor; auto.
Qed.

Lemma obj_delete_keys k o k' : k' ∈ (obj_delete k o).*1 ↔ k' ≠ k ∧ k' ∈ o.*1.
Proof.
  unfold obj_delete. rewrite !list_elem_of_fmap. split.
  - intros ([k1 v1] & -> & Hin). apply list_elem_of_filter in Hin as [Hne Hin].
    split; [exact Hne|]. by exists (k1, v1).
  - intros (Hne & [k1 v1] & -> & Hin). exists (k1, v1). split; [done|].
    apply list_elem_of_filter. done.
Qed.

Lemma obj_delete_NoDup k o : NoDup o.*1 → NoDup (obj_delete k o).*1.
Proof.
  intros Hnd. eapply sublist_NoDup; [exact Hnd|].
  unfold obj_delete. apply fmap_sublist, sublist_filter.
Qed.

Lemma obj_delete_Forall (P : string * V -> Prop) k o :
  Forall P o → Forall P (obj_delete k o).
Proof.
  unfold obj_delete. rewrite !Forall_forall. intros Ho kv Hin.
  apply list_elem_of_filter in Hin as [_ Hin]. auto.
Qed.

(** [sequenceList.forEach (seq => delete respond[key seq])]. *)
Lemma obj_delete_all_keys {S} (key : S -> string) (seqs : list S) o k' :
  k' ∈ (foldl (λ r seq, obj_delete (key seq) r) o seqs).*1 ↔
  k' ∈ o.*1 ∧ ∀ seq, seq ∈ seqs → k' ≠ key seq.
Proof.
  revert o. induction seqs as [|seq seqs IH]; intros o; cbn [foldl].
  - split; [|tauto]. intros H. split; [done|]. intros seq Hin. by apply elem_of_nil in Hin.
  - rewrite IH, obj_delete_keys. split.
    + intros [[Hne Hin] Hall]. split; [done|]. intros seq' Hseq'.
      apply elem_of_cons in Hseq' as [->|Hseq']; auto.
    + intros [Hin Hall]. split; [split|]; auto.
      * apply Hall. by left.
      * intros seq' Hseq'. apply Hall. by right.
Qed.

Lemma obj_delete_all_invariant {S} (P : list (string * V) -> Prop)
    (key : S -> string) (seqs : list S) o :
  (∀ k o, P o → P (obj_delete k o)) →
  P o → P (foldl (λ r seq, obj_delete (key seq) r) o seqs).
Proof.
  intros Hdel. revert o. induction seqs as [|seq seqs IH]; intros o Ho; cbn [foldl]; auto.
Qed.
End Objects.

Lemma respond_key_inj (dialogId : string) (s s' : N) :
  respond_key dialogId s = respond_key dialogId s' → s = s'.
Proof.
  unfold respond_key. intros H.
  apply (inj (String.append dialogId)) in H.
  apply (inj (String.append "-")) in H.
  by apply (inj pretty) in H.
Qed.

Lemma respond_wf_nil (dialogId : string) : respond_wf dialogId [].
Proof. split; constructor. Qed.

Lemma respond_step_wf (b : Bot) (body : MsgBody) (respond : list (string * ContentRecord))
    (change : MsgChange) :
  respond_wf (mb_dialogId body) respond →
  respond_wf (mb_dialogId body) (respond_step b body respond change).
Proof.
  intros [Hnd Hkeys]. unfold respond_step.
  destruct (tracked b (mc_dialogId change)); [|done].
  destruct (mc_event change) as [ct message| |status seqs|]; try done.
  - destruct (decide (mc_originatorId change ≠ agentId b)); [|done].
    split; [by apply obj_set_NoDup|]. by apply obj_set_Forall.
  - destruct (decide (mc_originatorId change = agentId b)); [|done].
    apply (obj_delete_all_invariant (respond_wf (mb_dialogId body))); [|done].
    intros k o [Hnd' Hkeys']. split; [by apply obj_delete_NoDup|by apply obj_delete_Forall].
Qed.

(** What one change of a tracked conversation does to the pending state of
    sequence number [s]. *)
Lemma respond_step_pending (b : Bot) (body : MsgBody)
    (respond : list (string * ContentRecord)) (change : MsgChange) (s : N) :
  tracked b (mc_dialogId change) = true →
  pending (mb_dialogId body) s (respond_step b body respond change) ↔
  content_from_other b s change = true ∨
  (read_receipt_by_me b s change = false ∧ pending (mb_dialogId body) s respond).
Proof.
  intros Htr. unfold respond_step, content_from_other, read_receipt_by_me, pending.
  rewrite Htr. destruct (mc_event change) as [ct message| |status seqs|];
    try (intuition congruence).
  - destruct (decide (mc_originatorId change ≠ agentId b)) as [Hne|He].
    + rewrite (bool_decide_eq_true_2 _ Hne). cbn [andb].
      rewrite obj_set_keys, bool_decide_eq_true. split.
      * intros [Hk|Hin]; [left|right; done]. symmetry. by eapply respond_key_inj.
      * intros [->|[_ Hin]]; [by left|by right].
    + rewrite (bool_decide_eq_false_2 _ He). cbn [andb]. intuition congruence.
  - destruct (decide (mc_originatorId change = agentId b)) as [He|Hne].
    + rewrite (bool_decide_eq_true_2 _ He). cbn [andb].
      rewrite obj_delete_all_keys, bool_decide_eq_false. split.
      * intros [Hin Hall]. right. split; [|done]. intros Hs. by apply (Hall s).
      * intros [?|[Hs Hin]]; [done|]. split; [done|].
        intros seq Hseq Hk. apply respond_key_inj in Hk. by subst.
    + rewrite (bool_decide_eq_false_2 _ Hne). cbn [andb]. intuition congruence.
Qed.

Lemma respond_of_wf (b : Bot) (body : MsgBody) :
  respond_wf (mb_dialogId body) (respond_of b body).
Proof.
  unfold respond_of. generalize (respond_wf_nil (mb_dialogId body)).
  generalize (@nil (string * ContentRecord)).
  induction (mb_changes body) as [|c cs IH]; intros r Hr; [exact Hr|].
  cbn [foldl]. apply IH, respond_step_wf, Hr.
Qed.

(** Without a later content event for [s], it stays out of [respond]. *)
Lemma stays_not_pending (b : Bot) (body : MsgBody) (changes : list MsgChange)
    (respond : list (string * ContentRecord)) (s : N) :
  Forall (λ c, tracked b (mc_dialogId c) = true) changes →
  Forall (λ c, content_from_other b s c = false) changes →
  ¬ pending (mb_dialogId body) s respond →
  ¬ pending (mb_dialogId body) s (foldl (respond_step b body) respond changes).
Proof.
  revert respond. induction changes as [|c cs IH]; intros r Htr Hno Hr; [exact Hr|].
  apply Forall_cons in Htr as [Hc Htr]. apply Forall_cons in Hno as [Hnc Hno].
  cbn [foldl]. apply IH; [done..|].
  rewrite (respond_step_pending b body r c s Hc). intros [?|[_ ?]]; [congruence|done].
Qed.

(** Without a later receipt by the bot that covers [s], it stays in
    [respond]. *)
Lemma stays_pending (b : Bot) (body : MsgBody) (changes : list MsgChange)
    (respond : list (string * ContentRecord)) (s : N) :
  Forall (λ c, tracked b (mc_dialogId c) = true) changes →
  Forall (λ c, read_receipt_by_me b s c = false) changes →
  pending (mb_dialogId body) s respond →
  pending (mb_dialogId body) s (foldl (respond_step b body) respond changes).
Proof.
  revert respond. induction changes as [|c cs IH]; intros r Htr Hno Hr; [exact Hr|].
  apply Forall_cons in Htr as [Hc Htr]. apply Forall_cons in Hno as [Hnc Hno].
  cbn [foldl]. apply IH; [done..|].
  rewrite (respond_step_pending b body r c s Hc). right. done.
Qed.

Lemma on_tracked_conversation_changes (b : Bot) (body : MsgBody) :
  on_tracked_conversation b body = true →
  tracked b (mb_dialogId body) = true ∧
  Forall (λ c, tracked b (mc_dialogId c) = true) (mb_changes body).
Proof.
  unfold on_tracked_conversation. rewrite andb_true_iff, forallb_forall.
  intros [Htr Hall]. split; [exact Htr|]. apply Forall_forall. intros c Hc.
  apply list_elem_of_In, Hall, bool_decide_eq_true in Hc. by rewrite Hc.
Qed.

(** A receipt by the bot that covers [s], with no content event for [s] after
    it, leaves [s] out of [respond]. *)
Lemma receipt_last_not_pending (b : Bot) (body : MsgBody) (s : N)
    (before : list MsgChange) (receipt : MsgChange) (after : list MsgChange) :
  on_tracked_conversation b body = true →
  mb_changes body = before ++ receipt :: after →
  read_receipt_by_me b s receipt = true →
  Forall (λ c, content_from_other b s c = false) after →
  ¬ pending (mb_dialogId body) s (respond_of b body).
Proof.
  intros Hbatch Hsplit Hreceipt Hafter.
  apply on_tracked_conversation_changes in Hbatch as [_ Htr].
  unfold respond_of. rewrite Hsplit in *. rewrite foldl_app. cbn [foldl].
  apply Forall_app in Htr as [_ Htr]. apply Forall_cons in Htr as [Hr Htr].
  apply stays_not_pending; [done..|].
  rewrite (respond_step_pending b body _ receipt s Hr).
  intros [Hc|[Hn _]]; [|congruence].
  unfold content_from_other, read_receipt_by_me in *.
  destruct (mc_event receipt); discriminate.
Qed.

(** A content event for [s] by somebody else, with no receipt by the bot that
    covers [s] after it, leaves [s] in [respond]. *)
Lemma content_last_pending (b : Bot) (body : MsgBody) (s : N)
    (before : list MsgChange) (content : MsgChange) (after : list MsgChange) :
  on_tracked_conversation b body = true →
  mb_changes body = before ++ content :: after →
  content_from_other b s content = true →
  Forall (λ c, read_receipt_by_me b s c = false) after →
  pending (mb_dialogId body) s (respond_of b body).
Proof.
  intros Hbatch Hsplit Hcontent Hafter.
  apply on_tracked_conversation_changes in Hbatch as [_ Htr].
  unfold respond_of. rewrite Hsplit in *. rewrite foldl_app. cbn [foldl].
  apply Forall_app in Htr as [_ Htr]. apply Forall_cons in Htr as [Hc Htr].
  apply stays_pending; [done..|].
  rewrite (respond_step_pending b body _ content s Hc). by left.
Qed.

(** ** What a batch emits *)

Lemma content_notifications_app (t1 t2 : list Effect) :
  content_notifications (t1 ++ t2) = content_notifications t1 ++ content_notifications t2.
Proof. unfold content_notifications. apply omap_app. Qed.

Lemma calls_app (t1 t2 : list Effect) : calls (t1 ++ t2) = calls t1 ++ calls t2.
Proof. unfold calls. apply omap_app. Qed.

Lemma pending_messages_emitted (role : option string) (respond : list (string * ContentRecord)) :
  content_notifications (flat_map (pending_message_trace role) respond) = respond.*2.
Proof.
  induction respond as [|entry respond IH]; [reflexivity|].
  cbn [flat_map]. rewrite content_notifications_app, IH.
  unfold pending_message_trace. destruct (decide (role = Some "ASSIGNED_AGENT")); reflexivity.
Qed.

Lemma pending_messages_marked (role : option string) (respond : list (string * ContentRecord)) :
  calls (flat_map (pending_message_trace role) respond) =
    if decide (role = Some "ASSIGNED_AGENT") then
      (λ entry, publishEvent (ce_dialogId entry.2)
                  (AcceptStatusEvent "READ" [ce_sequence entry.2])) <$> respond
    else [].
Proof.
  induction respond as [|entry respond IH].
  - destruct (decide _); reflexivity.
  - cbn [flat_map]. rewrite calls_app, IH.
    unfold pending_message_trace. destruct (decide (role = Some "ASSIGNED_AGENT")); reflexivity.
Qed.

(** The second loop, on a conversation with a detail snapshot. *)
Lemma pending_messages_run (body : MsgBody) (b : Bot) (tc : TrackedConversation)
    (details : ConversationDetails) (respond : list (string * ContentRecord)) :
  myConversations b !! mb_dialogId body = Some tc →
  tc_conversationDetails tc = Some details →
  forEach respond (onPendingMessage body) b =
    (Returned (), b, flat_map (pending_message_trace (getRole details (agentId b))) respond).
Proof.
  intros Hlook Hdet. apply forEach_stateless. intros entry.
  apply (onPendingMessage_run body entry b tc details Hlook Hdet).
Qed.

(** The second loop emits the pending messages, or nothing when it throws at
    its first one. *)
Lemma pending_messages_emitted_or_none (body : MsgBody) (b : Bot)
    (respond : list (string * ContentRecord)) :
  content_notifications (trace (forEach respond (onPendingMessage body) b)) = respond.*2 ∨
  content_notifications (trace (forEach respond (onPendingMessage body) b)) = [].
Proof.
  destruct (myConversations b !! mb_dialogId body) as [tc|] eqn:Hlook.
  - destruct (tc_conversationDetails tc) as [details|] eqn:Hdet.
    + left. rewrite (pending_messages_run body b tc details respond Hlook Hdet).
      apply pending_messages_emitted.
    + right. destruct respond as [|entry respond]; [reflexivity|].
      cbn [forEach]. unfold onPendingMessage, getRole_in. run_M.
      rewrite Hlook, Hdet. reflexivity.
  - right. destruct respond as [|entry respond]; [reflexivity|].
    cbn [forEach]. unfold onPendingMessage, getRole_in. run_M.
    rewrite Hlook. reflexivity.
Qed.

Lemma not_pending_none (dialogId : string) (s : N) (respond : list (string * ContentRecord)) :
  respond_wf dialogId respond →
  ¬ pending dialogId s respond →
  filter (λ ce, ce_sequence ce = s) respond.*2 = [].
Proof.
  intros [_ Hkeys] Hnot. induction respond as [|[k ce] respond IH]; [reflexivity|].
  apply Forall_cons in Hkeys as [[Hk _] Hkeys]. cbn in Hk.
  unfold pending in *. rewrite fmap_cons, elem_of_cons in Hnot. cbn in Hnot.
  rewrite fmap_cons, filter_cons. cbn.
  destruct (decide (ce_sequence ce = s)) as [<-|_].
  - exfalso. apply Hnot. left. by rewrite Hk.
  - apply IH; [done|tauto].
Qed.

Lemma pending_one (dialogId : string) (s : N) (respond : list (string * ContentRecord)) :
  respond_wf dialogId respond →
  pending dialogId s respond →
  length (filter (λ ce, ce_sequence ce = s) respond.*2) = 1.
Proof.
  intros [Hnd Hkeys] Hin. induction respond as [|[k ce] respond IH].
  - by apply elem_of_nil in Hin.
  - apply Forall_cons in Hkeys as [[Hk Hd] Hkeys]. cbn in Hk.
    rewrite fmap_cons, NoDup_cons in Hnd. destruct Hnd as [Hfresh Hnd]. cbn in Hfresh.
    unfold pending in *. rewrite fmap_cons, elem_of_cons in Hin. cbn in Hin.
    rewrite fmap_cons, filter_cons. cbn.
    destruct (decide (ce_sequence ce = s)) as [Hs|Hs].
    + rewrite (not_pending_none dialogId s respond); [reflexivity|done|].
      unfold pending. rewrite <- Hs, <- Hk. exact Hfresh.
    + apply IH; [done..|]. destruct Hin as [Hks|Hin]; [|done].
      rewrite Hk in Hks. apply respond_key_inj in Hks. congruence.
Qed.

Lemma receipts_count (dialogId : string) (s : N) (respond : list (string * ContentRecord)) :
  respond_wf dialogId respond →
  length (filter (λ c, c = publishEvent dialogId (AcceptStatusEvent "READ" [s]))
            ((λ entry, publishEvent (ce_dialogId entry.2)
                         (AcceptStatusEvent "READ" [ce_sequence entry.2])) <$> respond)) =
  length (filter (λ ce, ce_sequence ce = s) respond.*2).
Proof.
  intros [_ Hkeys]. induction respond as [|[k ce] respond IH]; [reflexivity|].
  apply Forall_cons in Hkeys as [[_ Hd] Hkeys]. cbn in Hd.
  rewrite !fmap_cons, !filter_cons. cbn. rewrite Hd.
  destruct (decide (ce_sequence ce = s)) as [->|Hs].
  - rewrite decide_True by done. cbn. by rewrite IH.
  - rewrite decide_False by congruence. by apply IH.
Qed.

(** The run of the handler on a batch keyed by a conversation with a detail
    snapshot. *)
Lemma batch_run (body : MsgBody) (b : Bot) (tc : TrackedConversation)
    (details : ConversationDetails) :
  myConversations b !! mb_dialogId body = Some tc →
  tc_conversationDetails tc = Some details →
  onMessagingEventNotification body b =
    (Returned (), b,
     messaging_log body ++
     flat_map (pending_message_trace (getRole details (agentId b))) (respond_of b body)).
Proof.
  intros Hlook Hdet. rewrite onMessagingEventNotification_run.
  assert (tracked b (mb_dialogId body) = true) as -> by (apply tracked_true; eauto).
  rewrite (pending_messages_run body b tc details _ Hlook Hdet). reflexivity.
Qed.

Lemma batch_emitted (body : MsgBody) (b : Bot) (tc : TrackedConversation)
    (details : ConversationDetails) (s : N) :
  myConversations b !! mb_dialogId body = Some tc →
  tc_conversationDetails tc = Some details →
  emitted_for s (trace (onMessagingEventNotification body b)) =
    filter (λ ce, ce_sequence ce = s) (respond_of b body).*2.
Proof.
  intros Hlook Hdet. rewrite (batch_run body b tc details Hlook Hdet).
  unfold emitted_for, trace. cbn [snd].
  rewrite content_notifications_app, pending_messages_emitted.
  destruct (messaging_log_only_logs body) as [-> _]. reflexivity.
Qed.

(** C2: in a batch on a tracked conversation in which a content event with
    sequence number [s] by somebody else is followed by a read receipt of the
    bot itself that covers [s], and [s] is not the sequence number of a
    content event after that receipt, no content notification is emitted for
    [s]. *)
Theorem read_receipt_cancels_earlier_content
    (b : Bot) (body : MsgBody) (s : N)
    (before : list MsgChange) (content : MsgChange) (between : list MsgChange)
    (receipt : MsgChange) (after : list MsgChange) :
  on_tracked_conversation b body = true →
  mb_changes body = before ++ content :: between ++ receipt :: after →
  content_from_other b s content = true →
  read_receipt_by_me b s receipt = true →
  Forall (λ c, content_from_other b s c = false) after →
  emitted_for s (trace (onMessagingEventNotification body b)) = [].
Proof.
  intros Hbatch Hsplit _ Hreceipt Hafter.
  assert (¬ pending (mb_dialogId body) s (respond_of b body)) as Hnot.
  { apply (receipt_last_not_pending b body s (before ++ content :: between) receipt after);
      [done| |done..]. rewrite Hsplit, <- app_assoc. reflexivity. }
  pose proof (not_pending_none _ s _ (respond_of_wf b body) Hnot) as Hnone.
  apply on_tracked_conversation_changes in Hbatch as [Htr _].
  rewrite onMessagingEventNotification_run, Htr. cbn zeta.
  unfold emitted_for, trace at 1. cbn [snd].
  rewrite content_notifications_app. destruct (messaging_log_only_logs body) as [-> _].
  cbn [app].
  destruct (pending_messages_emitted_or_none body b (respond_of b body)) as [->| ->];
    [exact Hnone|reflexivity].
Qed.

Lemma read_receipt_cancels_earlier_content_witness :
  emitted_for 7 (trace (onMessagingEventNotification content_then_receipt tracking_C1)) = [].
Proof.
  apply (read_receipt_cancels_earlier_content tracking_C1 content_then_receipt 7
           [] content_7 [] receipt_7 []); try reflexivity.
  constructor.
Defined.

Lemma getRole_absent (details : ConversationDetails) (pid : string) :
  Forall (λ p, participant_id p ≠ pid) (participants details) →
  getRole details pid = None.
Proof.
  intros Habsent. unfold getRole.
  induction Habsent as [|p l Hp _ IH]; [reflexivity|].
  rewrite filter_cons, decide_False by done. exact IH.
Qed.

Lemma getRole_first (details : ConversationDetails) (pid : string)
    (earlier : list Participant) (me : Participant) (later : list Participant) :
  participants details = earlier ++ me :: later →
  Forall (λ p, participant_id p ≠ pid) earlier →
  participant_id me = pid →
  getRole details pid = participant_role me.
Proof.
  intros Hsplit Hearlier Hme. unfold getRole. rewrite Hsplit, filter_app. clear Hsplit.
  assert (filter (λ p, participant_id p = pid) earlier = []) as ->.
  { induction Hearlier as [|p l Hp _ IH]; [reflexivity|].
    rewrite filter_cons, decide_False by done. exact IH. }
  rewrite filter_cons, decide_True by done. reflexivity.
Qed.

(** C3, as the code has it: in a batch on a tracked conversation (with its
    detail snapshot) that contains a content event with sequence number [s]
    by somebody else and no [AcceptStatusEvent] of the bot itself, of whatever
    status, that covers [s], the handler returns and exactly one content
    notification is emitted for [s]; the number of [markAsRead] calls for [s]
    is one when the first participant of the snapshot with the bot's id has
    the role ASSIGNED_AGENT, and zero when it has another role or none, or
    when the bot is no participant. *)
Theorem unacknowledged_content_emitted_once
    (b : Bot) (body : MsgBody) (tc : TrackedConversation)
    (details : ConversationDetails) (s : N) (content : MsgChange) :
  on_tracked_conversation b body = true →
  myConversations b !! mb_dialogId body = Some tc →
  tc_conversationDetails tc = Some details →
  content ∈ mb_changes body →
  content_from_other b s content = true →
  Forall (λ c, read_receipt_by_me b s c = false) (mb_changes body) →
  let r := onMessagingEventNotification body b in
  let receipts := length (read_receipts_for (mb_dialogId body) s (trace r)) in
  outcome r = Returned () ∧
  length (emitted_for s (trace r)) = 1 ∧
  (Forall (λ p, participant_id p ≠ agentId b) (participants details) → receipts = 0) ∧
  (∀ earlier me later,
     participants details = earlier ++ me :: later →
     Forall (λ p, participant_id p ≠ agentId b) earlier →
     participant_id me = agentId b →
     receipts = if decide (participant_role me = Some "ASSIGNED_AGENT") then 1 else 0).
Proof.
  intros Hbatch Hlook Hdet Hin Hcontent Hnone. cbv zeta.
  apply list_elem_of_split in Hin as (before & after & Hsplit).
  assert (pending (mb_dialogId body) s (respond_of b body)) as Hpending.
  { apply (content_last_pending b body s before content after); [done..|].
    rewrite Hsplit in Hnone. apply Forall_app in Hnone as [_ Hnone].
    by apply Forall_cons in Hnone as [_ Hnone]. }
  pose proof (pending_one _ s _ (respond_of_wf b body) Hpending) as Hone.
  rewrite (batch_emitted body b tc details s Hlook Hdet).
  rewrite (batch_run body b tc details Hlook Hdet).
  split; [reflexivity|]. split; [exact Hone|].
  assert (length (read_receipts_for (mb_dialogId body) s
                    (messaging_log body ++
                     flat_map (pending_message_trace (getRole details (agentId b)))
                       (respond_of b body))) =
          if decide (getRole details (agentId b) = Some "ASSIGNED_AGENT") then 1 else 0)
    as Hreceipts.
  { unfold read_receipts_for. rewrite calls_app, pending_messages_marked.
    destruct (messaging_log_only_logs body) as [_ ->]. cbn [app].
    destruct (decide (getRole details (agentId b) = Some "ASSIGNED_AGENT")); [|reflexivity].
    rewrite (receipts_count _ s _ (respond_of_wf b body)). exact Hone. }
  unfold trace. cbn [snd]. rewrite Hreceipts. split.
  - intros Habsent. by rewrite (getRole_absent details (agentId b) Habsent).
  - intros earlier me later Hparts Hearlier Hme.
    by rewrite (getRole_first details (agentId b) earlier me later Hparts Hearlier Hme).
Qed.

Lemma unacknowledged_content_emitted_once_witness :
  (outcome (onMessagingEventNotification content_batch tracking_C1) = Returned () ∧
   length (emitted_for 7 (trace (onMessagingEventNotification content_batch tracking_C1))) = 1 ∧
   length (read_receipts_for "C1" 7
             (trace (onMessagingEventNotification content_batch tracking_C1))) = 1) ∧
  (length (emitted_for 7 (trace (onMessagingEventNotification content_batch managing_C1))) = 1 ∧
   length (read_receipts_for "C1" 7
             (trace (onMessagingEventNotification content_batch managing_C1))) = 0).
Proof.
  split.
  - destruct (unacknowledged_content_emitted_once tracking_C1 content_batch
                (refreshed empty_object (cc_result upsert_with_consumer))
                (conversationDetails (cc_result upsert_with_consumer)) 7 content_7)
      as (Hout & Hone & _ & Hrole); try reflexivity; [by left|repeat constructor|].
    split; [exact Hout|]. split; [exact Hone|].
    apply (Hrole [ {| participant_id := "u1"; participant_role := Some "CONSUMER" |} ]
             {| participant_id := "bot"; participant_role := Some "ASSIGNED_AGENT" |} []);
      [reflexivity|constructor; [discriminate|constructor]|reflexivity].
  - destruct (unacknowledged_content_emitted_once managing_C1 content_batch
                (refreshed empty_object (cc_result upsert_as_manager))
                (conversationDetails (cc_result upsert_as_manager)) 7 content_7)
      as (_ & Hone & _ & Hrole); try reflexivity; [by left|repeat constructor|].
    split; [exact Hone|].
    apply (Hrole [ {| participant_id := "u1"; participant_role := Some "CONSUMER" |} ]
             {| participant_id := "bot"; participant_role := Some "MANAGER" |} []);
      [reflexivity|constructor; [discriminate|constructor]|reflexivity].
Defined.

(** C3 as stated fails: in the batch of message 7 by the consumer followed by
    the bot's own receipt for it with status ACCEPT, on a tracked
    conversation, a content event by somebody else has no read receipt of the
    bot in the batch, and no content notification is emitted for 7: the
    handler does not look at the status of a receipt. *)
Lemma accept_receipt_cancels_content :
  on_tracked_conversation tracking_C1 content_then_accept = true ∧
  content_7 ∈ mb_changes content_then_accept ∧
  content_from_other tracking_C1 7 content_7 = true ∧
  Forall (λ c, READ_receipt_by_me tracking_C1 7 c = false) (mb_changes content_then_accept) ∧
  emitted_for 7 (trace (onMessagingEventNotification content_then_accept tracking_C1)) = [].
Proof.
  split; [reflexivity|]. split; [by left|]. split; [reflexivity|].
  split; [repeat constructor|]. vm_compute. reflexivity.
Qed.

(** C10: a read receipt of the bot cancels only content events before it.
    In a batch on a tracked conversation (with its detail snapshot) in which
    a receipt of the bot that covers [s] comes before a content event with
    sequence number [s] by somebody else: when no such receipt comes after
    that content event, exactly one content notification is emitted for [s];
    and, taking the last such content event of the batch, the notification
    for [s] is dropped exactly when a receipt that covers [s] comes after
    it. *)
Theorem read_receipt_cancels_only_earlier_content
    (b : Bot) (body : MsgBody) (tc : TrackedConversation)
    (details : ConversationDetails) (s : N)
    (before : list MsgChange) (receipt : MsgChange) (between : list MsgChange)
    (content : MsgChange) (after : list MsgChange) :
  on_tracked_conversation b body = true →
  myConversations b !! mb_dialogId body = Some tc →
  tc_conversationDetails tc = Some details →
  mb_changes body = before ++ receipt :: between ++ content :: after →
  read_receipt_by_me b s receipt = true →
  content_from_other b s content = true →
  (Forall (λ c, read_receipt_by_me b s c = false) after →
   length (emitted_for s (trace (onMessagingEventNotification body b))) = 1) ∧
  (Forall (λ c, content_from_other b s c = false) after →
   length (emitted_for s (trace (onMessagingEventNotification body b))) =
     if existsb (read_receipt_by_me b s) after then 0 else 1).
Proof.
  intros Hbatch Hlook Hdet Hsplit _ Hcontent.
  assert (mb_changes body = (before ++ receipt :: between) ++ content :: after) as Hsplit'
    by (rewrite Hsplit, <- app_assoc; reflexivity).
  rewrite (batch_emitted body b tc details s Hlook Hdet).
  assert (Forall (λ c, read_receipt_by_me b s c = false) after →
          length (filter (λ ce, ce_sequence ce = s) (respond_of b body).*2) = 1) as Hkept.
  { intros Hafter. apply (pending_one _ s _ (respond_of_wf b body)).
    by apply (content_last_pending b body s (before ++ receipt :: between) content after). }
  split; [exact Hkept|]. intros Hlast.
  destruct (existsb (read_receipt_by_me b s) after) eqn:Hreceipts.
  - apply existsb_exists in Hreceipts as (later & Hin & Hlater).
    apply list_elem_of_In, list_elem_of_split in Hin as (l1 & l2 & ->).
    apply Forall_app in Hlast as [_ Hlast]. apply Forall_cons in Hlast as [_ Hlast].
    rewrite (not_pending_none _ s _ (respond_of_wf b body)); [reflexivity|].
    apply (receipt_last_not_pending b body s
             ((before ++ receipt :: between) ++ content :: l1) later l2); [done| |done..].
    rewrite Hsplit, <- !app_assoc. reflexivity.
  - apply Hkept. apply Forall_forall. intros c Hc. apply not_true_is_false. intros Hr.
    assert (existsb (read_receipt_by_me b s) after = true) as Hex
      by (apply existsb_exists; exists c; split; [by apply list_elem_of_In|done]).
    congruence.
Qed.

Lemma read_receipt_cancels_only_earlier_content_witness :
  length (emitted_for 7
            (trace (onMessagingEventNotification receipt_then_content tracking_C1))) = 1.
Proof.
  apply (read_receipt_cancels_only_earlier_content tracking_C1 receipt_then_content
           (refreshed empty_object (cc_result upsert_with_consumer))
           (conversationDetails (cc_result upsert_with_consumer)) 7
           [] receipt_7 [] content_7 []); try reflexivity.
  constructor.
Defined.

(** C2 as stated fails: in the batch of message 7 by the consumer, the bot's
    receipt for it, and message 7 again, a content event by somebody else is
    followed by a receipt of the bot that covers it, and one content
    notification is emitted for 7. *)
Lemma content_after_receipt_is_emitted :
  on_tracked_conversation tracking_C1 content_receipt_content = true ∧
  mb_changes content_receipt_content = [] ++ content_7 :: [] ++ receipt_7 :: [content_7] ∧
  content_from_other tracking_C1 7 content_7 = true ∧
  read_receipt_by_me tracking_C1 7 receipt_7 = true ∧
  emitted_for 7 (trace (onMessagingEventNotification content_receipt_content tracking_C1)) ≠ [].
Proof. vm_compute. repeat split; discriminate. Qed.

(** ** Reconnection *)

Lemma find_newest (old : list Timer) (id : nat) (delay : float) (attempt : nat) :
  Forall (λ t, (timer_id t < id)%nat) old →
  find (λ t, Nat.eqb (timer_id t) id) (old ++ [timeout_of id delay attempt]) =
    Some (timeout_of id delay attempt).
Proof.
  induction 1 as [|t old Ht _ IH]; cbn.
  - by rewrite Nat.eqb_refl.
  - destruct (Nat.eqb_spec (timer_id t) id); [lia|exact IH].
Qed.

Lemma without_older (old : list Timer) (id : nat) :
  Forall (λ t, (timer_id t < id)%nat) old → without id old = old.
Proof.
  unfold without. induction 1 as [|t old Ht _ IH]; [reflexivity|].
  rewrite filter_cons, decide_True by lia. by rewrite IH.
Qed.

Lemma without_newest (old : list Timer) (id : nat) (delay : float) (attempt : nat) :
  Forall (λ t, (timer_id t < id)%nat) old →
  without id (old ++ [timeout_of id delay attempt]) = old.
Proof.
  intros Hold. unfold without. rewrite filter_app. fold (without id old).
  rewrite (without_older old id Hold), filter_cons, decide_False, filter_nil, app_nil_r;
    [reflexivity|]. intros Hne. by apply Hne.
Qed.

Lemma older_le (old : list Timer) (id id' : nat) :
  (id ≤ id')%nat →
  Forall (λ t, (timer_id t < id)%nat) old → Forall (λ t, (timer_id t < id')%nat) old.
Proof. intros Hle Hold. eapply Forall_impl; [exact Hold|]. intros t Ht. cbn in *. lia. Qed.

(** The timeout set last fires while attempts are left: the transport's
    [reconnect] is called once and the timeout for the next attempt is set;
    the older timeouts stay as they are. *)
Lemma fire_newest_next (old : list Timer) (id : nat) (delay : float) (attempt : nat)
    (rt : Runtime) :
  newest old id delay attempt rt →
  (attempt < botConfig.reconnectAttempts)%nat →
  ∃ rt1,
    fire id rt = Some (timeout_of id delay attempt, rt1,
                       [Call reconnect; Log warn "[bot.js] reconnecting"]) ∧
    newest old (S id) (delay * botConfig.reconnectRatio)%float (S attempt) rt1.
Proof.
  intros (Hts & Hcount & Hold & _) Hlt. unfold fire.
  rewrite Hts, (find_newest _ _ _ _ Hold), (without_newest _ _ _ _ Hold).
  unfold reconnect_timeout. cbn [cb_attempt cb_delay timeout_of].
  destruct (Nat.leb_spec (S attempt) botConfig.reconnectAttempts) as [_|?]; [|lia].
  unfold _reconnect, setTimeout. cbn [rt_count rt_timeouts rt_bot]. rewrite Hcount.
  eexists. split; [reflexivity|].
  split; [reflexivity|]. split; [reflexivity|]. split; [|reflexivity].
  by apply (older_le old id (S id)); [lia|].
Qed.

(** The timeout for the last attempt fires: [reconnect] is called once and
    no timeout is set. *)
Lemma fire_newest_last (old : list Timer) (id : nat) (delay : float) (attempt : nat)
    (rt : Runtime) :
  newest old id delay attempt rt →
  (botConfig.reconnectAttempts ≤ attempt)%nat →
  ∃ rt1,
    fire id rt = Some (timeout_of id delay attempt, rt1,
                       [Call reconnect; Log error "[bot.js] failed to reconnect"]) ∧
    rt_timeouts rt1 = old ∧ rt_count rt1 = S id.
Proof.
  intros (Hts & Hcount & Hold & _) Hge. unfold fire.
  rewrite Hts, (find_newest _ _ _ _ Hold), (without_newest _ _ _ _ Hold).
  unfold reconnect_timeout. cbn [cb_attempt cb_delay timeout_of].
  destruct (Nat.leb_spec (S attempt) botConfig.reconnectAttempts) as [?|_]; [lia|].
  eexists. split; [reflexivity|]. split; [reflexivity|exact Hcount].
Qed.

(** With one timeout pending no other can fire. *)
Lemma fire_other (id id' : nat) (delay : float) (attempt : nat) (rt : Runtime) :
  newest [] id delay attempt rt → id' ≠ id → fire id' rt = None.
Proof.
  intros (Hts & _) Hne. unfold fire. rewrite Hts. cbn.
  destruct (Nat.eqb_spec id id'); [congruence|reflexivity].
Qed.

Lemma fires_cons_other (id id' : nat) (ids : list nat) (delay : float) (attempt : nat)
    (rt : Runtime) :
  newest [] id delay attempt rt → id' ≠ id → fires (id' :: ids) rt = None.
Proof.
  intros Hnewest Hne. cbn [fires].
  by rewrite (fire_other id id' delay attempt rt Hnewest Hne).
Qed.

Lemma fires_idle (id : nat) (ids : list nat) (rt : Runtime) :
  rt_timeouts rt = [] → fires (id :: ids) rt = None.
Proof. intros Hidle. cbn [fires]. unfold fire. by rewrite Hidle. Qed.

Lemma reconnects_app (t1 t2 : list Effect) :
  reconnects (t1 ++ t2) = (reconnects t1 + reconnects t2)%nat.
Proof. unfold reconnects. by rewrite calls_app, filter_app, length_app. Qed.

(** The first [k] timeouts of a sequence fire, while attempts are left. *)
Lemma fires_partial (old : list Timer) (k : nat) :
  ∀ (delay : float) (attempt id : nat) (rt : Runtime),
    (attempt + k ≤ botConfig.reconnectAttempts)%nat →
    newest old id delay attempt rt →
    ∃ rt' tr,
      fires (seq id k) rt = Some (timeouts k id delay attempt, rt', tr) ∧
      newest old (id + k) (delay_after k delay) (attempt + k) rt' ∧
      reconnects tr = k.
Proof.
  induction k as [|k IH]; intros delay attempt id rt Hleft Hnewest.
  - exists rt, []. rewrite !Nat.add_0_r. done.
  - destruct (fire_newest_next old id delay attempt rt Hnewest) as (rt1 & Hfire & Hnext);
      [lia|].
    destruct (IH (delay * botConfig.reconnectRatio)%float (S attempt) (S id) rt1)
      as (rt' & tr & Hfires & Hlast & Hcount); [lia|exact Hnext|].
    exists rt', ([Call reconnect; Log warn "[bot.js] reconnecting"] ++ tr).
    cbn [seq fires timeouts]. rewrite Hfire, Hfires. split; [reflexivity|]. split.
    + cbn [delay_after]. by rewrite <- !Nat.add_succ_comm.
    + rewrite reconnects_app, Hcount. reflexivity.
Qed.

(** From the timeout for attempt [attempt] on, with [n] more attempts up to
    the last one, [S n] timeouts fire, each with one call of [reconnect], and
    then none of the sequence is pending. *)
Lemma fires_chain (old : list Timer) (n : nat) :
  ∀ (delay : float) (attempt id : nat) (rt : Runtime),
    (attempt + n)%nat = botConfig.reconnectAttempts →
    newest old id delay attempt rt →
    ∃ rt' tr,
      fires (seq id (S n)) rt = Some (timeouts (S n) id delay attempt, rt', tr) ∧
      rt_timeouts rt' = old ∧
      reconnects tr = S n.
Proof.
  induction n as [|n IH]; intros delay attempt id rt Hlast Hnewest.
  - destruct (fire_newest_last old id delay attempt rt Hnewest) as (rt1 & Hfire & Hidle & _);
      [lia|].
    exists rt1, ([Call reconnect; Log error "[bot.js] failed to reconnect"] ++ []).
    cbn [seq fires timeouts]. rewrite Hfire. done.
  - destruct (fire_newest_next old id delay attempt rt Hnewest) as (rt1 & Hfire & Hnext);
      [lia|].
    destruct (IH (delay * botConfig.reconnectRatio)%float (S attempt) (S id) rt1)
      as (rt' & tr & Hfires & Hidle & Hcount); [lia|exact Hnext|].
    exists rt', ([Call reconnect; Log warn "[bot.js] reconnecting"] ++ tr).
    change (seq id (S (S n))) with (id :: seq (S id) (S n)).
    cbn [fires]. rewrite Hfire, Hfires. split; [reflexivity|]. split; [exact Hidle|].
    rewrite reconnects_app, Hcount. reflexivity.
Qed.

(** When the timeout of the sequence is the only one pending, the timeouts of
    the sequence are the only ones that can fire, in their order. *)
Lemma fires_forced (n : nat) :
  ∀ (delay : float) (attempt id : nat) (rt : Runtime) (ids : list nat)
    (r : list Timer * Runtime * list Effect),
    (attempt + n)%nat = botConfig.reconnectAttempts →
    newest [] id delay attempt rt →
    fires ids rt = Some r →
    ids `prefix_of` seq id (S n).
Proof.
  induction n as [|n IH]; intros delay attempt id rt ids r Hlast Hnewest Hfires;
    (destruct ids as [|id' ids]; [apply prefix_nil|]);
    (destruct (decide (id' = id)) as [->|Hne];
      [|by rewrite (fires_cons_other id id' ids delay attempt rt Hnewest Hne) in Hfires]).
  - destruct (fire_newest_last [] id delay attempt rt Hnewest) as (rt1 & Hfire & Hidle & _);
      [lia|].
    cbn [fires] in Hfires. rewrite Hfire in Hfires.
    destruct ids as [|id' ids]; [done|].
    by rewrite (fires_idle id' ids rt1 Hidle) in Hfires.
  - destruct (fire_newest_next [] id delay attempt rt Hnewest) as (rt1 & Hfire & Hnext);
      [lia|].
    cbn [fires] in Hfires. rewrite Hfire in Hfires.
    destruct (fires ids rt1) as [r1|] eqn:Hrest; [|done].
    change (seq id (S (S n))) with (id :: seq (S id) (S n)).
    apply prefix_cons.
    apply (IH (delay * botConfig.reconnectRatio)%float (S attempt) (S id) rt1 ids r1);
      [lia|exact Hnext|exact Hrest].
Qed.

(** A closure sets the timeout for attempt 1 beside the pending ones. *)
Lemma onClosed_newest (rt : Runtime) :
  timeouts_wf rt →
  (onClosed rt).2 = [Log warn "[bot.js] socket closed"; Log warn "[bot.js] reconnecting"] ∧
  newest (rt_timeouts rt) (rt_count rt) botConfig.reconnectInterval 1 (onClosed rt).1.
Proof. intros Hwf. split; [reflexivity|]. repeat split. exact Hwf. Qed.

Lemma closure_sequence_unfold (n : nat) (rt : Runtime) :
  closure_sequence n rt =
    match fires (seq (rt_count rt) n) (onClosed rt).1 with
    | None => None
    | Some (ts, rt2, tr2) => Some (ts, rt2, (onClosed rt).2 ++ tr2)
    end.
Proof. reflexivity. Qed.

(** The state of the timeouts is well formed in every state the handlers
    reach. *)
Lemma onClosed_wf (rt : Runtime) : timeouts_wf rt → timeouts_wf (onClosed rt).1.
Proof.
  intros Hwf. unfold timeouts_wf. cbn. apply Forall_app. split.
  - by apply (older_le _ (rt_count rt)); [lia|].
  - repeat constructor.
Qed.

Lemma closure_sequence_run (rt : Runtime) :
  timeouts_wf rt →
  ∃ rt' tr,
    closure_sequence botConfig.reconnectAttempts rt =
      Some (timeouts botConfig.reconnectAttempts (rt_count rt) botConfig.reconnectInterval 1,
            rt', tr) ∧
    rt_timeouts rt' = rt_timeouts rt ∧
    reconnects tr = botConfig.reconnectAttempts.
Proof.
  intros Hwf. destruct (onClosed_newest rt Hwf) as [Htrace Hnewest].
  destruct (fires_chain (rt_timeouts rt) 34 botConfig.reconnectInterval 1 (rt_count rt)
              (onClosed rt).1) as (rt' & tr & Hfires & Hidle & Hcount);
    [reflexivity|exact Hnewest|].
  exists rt', ((onClosed rt).2 ++ tr). rewrite closure_sequence_unfold.
  unfold botConfig.reconnectAttempts at 1 2. rewrite Hfires.
  split; [reflexivity|]. split; [exact Hidle|].
  rewrite reconnects_app, Hcount, Htrace. reflexivity.
Qed.

Lemma reconnectRatio_value_spec :
  float_to_Q botConfig.reconnectRatio = Some reconnectRatio_value.
Proof. vm_compute. reflexivity. Qed.

Lemma timeouts_attempts (n id : nat) (delay : float) (attempt : nat) :
  map cb_attempt (timeouts n id delay attempt) = seq attempt n.
Proof.
  revert id delay attempt. induction n as [|n IH]; intros id delay attempt; [reflexivity|].
  cbn [timeouts map seq cb_attempt timeout_of]. by rewrite IH.
Qed.

Lemma timeouts_delays (n : nat) :
  ∀ (id : nat) (delay : float) (attempt k : nat) (t t' : Timer),
    timeouts n id delay attempt !! k = Some t →
    timeouts n id delay attempt !! S k = Some t' →
    cb_delay t' = (cb_delay t * botConfig.reconnectRatio)%float.
Proof.
  induction n as [|n IH]; intros id delay attempt k t t' Ht Ht'; [done|].
  destruct k as [|k].
  - cbn in Ht. injection Ht as <-. destruct n; [done|]. cbn in Ht'. by injection Ht' as <-.
  - cbn in Ht. destruct n as [|n']; [done|]. eapply IH; [exact Ht|exact Ht'].
Qed.

Lemma timeouts_within_rounding (id : nat) :
  within_rounding (timeouts botConfig.reconnectAttempts id botConfig.reconnectInterval 1) = true.
Proof. vm_compute. reflexivity. Qed.

Lemma idle_wf (rt : Runtime) : rt_timeouts rt = [] → timeouts_wf rt.
Proof. intros Hnone. unfold timeouts_wf. rewrite Hnone. constructor. Qed.

(** C6: a socket closure at which no timeout is pending starts a sequence in
    which the timeouts for the attempts 1, 2, ..., 35 fire in this order; the
    delay before attempt [n] is the number the code computes for
    [5 * 1.2^(n-1)], reached from 5 by [n-1] multiplications by 1.2 in
    binary64 and equal to the exact value up to a relative error of [2^-48],
    and the timeout is set to it times 1000; the transport's [reconnect] is
    called once per attempt, 35 times in all; after the 35th no timeout is
    pending, so there is no 36th attempt; and these 35 timeouts are the only
    ones that can fire, in this order. *)
Theorem reconnect_backoff (rt : Runtime) :
  rt_timeouts rt = [] →
  ∃ ts rt' tr,
    closure_sequence 35 rt = Some (ts, rt', tr) ∧
    map cb_attempt ts = seq 1 35 ∧
    head (map cb_delay ts) = Some botConfig.reconnectInterval ∧
    (∀ n t t', ts !! n = Some t → ts !! S n = Some t' →
       cb_delay t' = (cb_delay t * botConfig.reconnectRatio)%float) ∧
    within_rounding ts = true ∧
    reconnects tr = 35 ∧
    rt_timeouts rt' = [] ∧
    (∀ ids r, fires ids (onClosed rt).1 = Some r → ids `prefix_of` seq (rt_count rt) 35).
Proof.
  intros Hnone. pose proof (idle_wf rt Hnone) as Hwf.
  destruct (closure_sequence_run rt Hwf) as (rt' & tr & Hrun & Hidle & Hcount).
  exists (timeouts botConfig.reconnectAttempts (rt_count rt) botConfig.reconnectInterval 1),
    rt', tr.
  split; [exact Hrun|]. split; [apply timeouts_attempts|]. split; [reflexivity|].
  split; [apply timeouts_delays|]. split; [apply timeouts_within_rounding|].
  split; [exact Hcount|]. split; [by rewrite Hidle|].
  intros ids r Hfires. destruct (onClosed_newest rt Hwf) as [_ Hnewest].
  rewrite Hnone in Hnewest.
  apply (fires_forced 34 botConfig.reconnectInterval 1 (rt_count rt) (onClosed rt).1 ids r);
    [reflexivity|exact Hnewest|exact Hfires].
Qed.

Lemma reconnect_backoff_witness :
  ∃ ts rt' tr,
    closure_sequence 35 (start (init "bot")) = Some (ts, rt', tr) ∧
    map cb_attempt ts = seq 1 35 ∧
    head (map cb_delay ts) = Some botConfig.reconnectInterval ∧
    (∀ n t t', ts !! n = Some t → ts !! S n = Some t' →
       cb_delay t' = (cb_delay t * botConfig.reconnectRatio)%float) ∧
    within_rounding ts = true ∧
    reconnects tr = 35 ∧
    rt_timeouts rt' = [] ∧
    (∀ ids r, fires ids (onClosed (start (init "bot"))).1 = Some r →
              ids `prefix_of` seq (rt_count (start (init "bot"))) 35).
Proof. apply (reconnect_backoff (start (init "bot"))). reflexivity. Defined.

(** ** The constructor's configuration *)

Lemma js_or_env (env : gmap string string) (name : string) (rest : option ConfigValue) :
  js_or (env_var env name) rest =
    match env !! name with
    | Some v => if decide (v = "") then rest else Some (cv_string v)
    | None => rest
    end.
Proof.
  unfold js_or, env_var. destruct (env !! name) as [v|]; [|reflexivity]. cbn.
  destruct (decide (v = "")) as [->|Hv]; [reflexivity|].
  by rewrite bool_decide_eq_true_2.
Qed.

(** The literal, field by field: the first variable that is set and not
    empty, else the value of the file. *)
Lemma _config_literal_sources (env : gmap string string) (config : gmap string ConfigValue) :
  _config_literal env config =
    (λ '(key, names), (key, config_value env config key names)) <$> config_sources.
Proof.
  unfold _config_literal, config_sources, config_value. cbn [fmap list_fmap first_set].
  rewrite !js_or_env.
  repeat (f_equal; [f_equal; repeat (destruct (env !! _) as [?|]; [destruct (decide _)|]);
                    reflexivity|]).
  f_equal. f_equal. destruct (env !! _) as [?|]; [destruct (decide _)|]; reflexivity.
Qed.

Lemma first_set_spec (env : gmap string string) (earlier : list string) (name : string)
    (later : list string) (v : string) :
  Forall (unset_or_empty env) earlier →
  env !! name = Some v → v ≠ "" →
  first_set env (earlier ++ name :: later) = Some v.
Proof.
  intros Hearlier Hname Hv. induction Hearlier as [|n l [Hn|Hn] _ IH]; cbn [app first_set].
  - rewrite Hname. by rewrite decide_False.
  - by rewrite Hn.
  - rewrite Hn. by rewrite decide_True.
Qed.

Lemma first_set_none (env : gmap string string) (names : list string) :
  first_set env names = None ↔ Forall (unset_or_empty env) names.
Proof.
  unfold unset_or_empty. induction names as [|n l IH]; cbn [first_set].
  - split; [constructor|reflexivity].
  - rewrite Forall_cons, <- IH. destruct (env !! n) as [v|]; [|intuition congruence].
    destruct (decide (v = "")) as [->|Hv]; [intuition congruence|].
    split; [discriminate|]. intros [[?|?] _]; congruence.
Qed.

Lemma _config_elem (env : gmap string string) (config : gmap string ConfigValue)
    (key : string) (v : ConfigValue) :
  (key, v) ∈ _config env config ↔
  ∃ names, (key, names) ∈ config_sources ∧ config_value env config key names = Some v.
Proof.
  unfold _config. rewrite _config_literal_sources, list_elem_of_omap. split.
  - intros ([k o] & Hin & Hv). apply list_elem_of_fmap in Hin as ([k' names] & Heq & Hin).
    cbn in Hv. injection Heq as -> ->.
    destruct (config_value env config k' names) as [v'|] eqn:Hval; [|discriminate].
    cbn in Hv. injection Hv as -> ->. eauto.
  - intros (names & Hin & Hval). exists (key, Some v). split; [|reflexivity].
    apply list_elem_of_fmap. exists (key, names). by rewrite Hval.
Qed.

Lemma assoc_unique {A B} (l : list (A * B)) (x : A) (y1 y2 : B) :
  NoDup l.*1 → (x, y1) ∈ l → (x, y2) ∈ l → y1 = y2.
Proof.
  induction l as [|[x0 y0] l IH]; [by intros _ ?%elem_of_nil|].
  rewrite fmap_cons, NoDup_cons, !elem_of_cons. cbn. intros [Hfresh Hnd] [H1|H1] [H2|H2].
  - congruence.
  - injection H1 as -> ->. exfalso. apply Hfresh, list_elem_of_fmap. by exists (x0, y2).
  - injection H2 as -> ->. exfalso. apply Hfresh, list_elem_of_fmap. by exists (x0, y1).
  - by apply IH.
Qed.

Lemma config_sources_NoDup : NoDup config_sources.*1.
Proof. apply (bool_decide_unpack _). vm_compute. exact I. Qed.

(** X1: the configuration handed to the transport has at most one entry per
    key, every key is one of the fourteen recognised fields, and a recognised
    field is left out exactly when none of its environment variables is set
    to a non-empty string and the file does not have it. *)
Theorem config_fields (env : gmap string string) (config : gmap string ConfigValue) :
  NoDup (_config env config).*1 ∧
  (∀ key, key ∈ (_config env config).*1 → key ∈ config_sources.*1) ∧
  (∀ key names, (key, names) ∈ config_sources →
     key ∉ (_config env config).*1 ↔
     Forall (unset_or_empty env) names ∧ config !! key = None).
Proof.
  split; [|split].
  - unfold _config. rewrite _config_literal_sources.
    pose proof config_sources_NoDup as Hnd. revert Hnd.
    induction config_sources as [|[k names] l IH]; [constructor|].
    rewrite !fmap_cons, NoDup_cons. cbn. intros [Hk Hnd].
    destruct (config_value env config k names); cbn; [|by apply IH].
    rewrite NoDup_cons. split; [|by apply IH]. intros Hin. apply Hk.
    apply list_elem_of_fmap in Hin as ([k' v'] & Hk' & Hin).
    apply list_elem_of_omap in Hin as ([k2 o] & Hin & Hv).
    apply list_elem_of_fmap in Hin as ([k3 n3] & Heq & Hin).
    destruct o as [v2|]; simplify_eq/=.
    apply list_elem_of_fmap. by exists (k3, n3).
  - intros key Hin. apply list_elem_of_fmap in Hin as ([k v] & -> & Hin).
    apply _config_elem in Hin as (names & Hin & _).
    apply list_elem_of_fmap. by exists (k, names).
  - intros key names Hin. rewrite <- first_set_none. split.
    + intros Hout. unfold config_value in *.
      destruct (first_set env names) as [v|] eqn:Hfirst.
      * exfalso. apply Hout. apply list_elem_of_fmap. exists (key, cv_string v).
        split; [reflexivity|]. apply _config_elem. exists names.
        unfold config_value. by rewrite Hfirst.
      * split; [reflexivity|]. destruct (config !! key) as [v|] eqn:Hfile; [|reflexivity].
        exfalso. apply Hout. apply list_elem_of_fmap. exists (key, v).
        split; [reflexivity|]. apply _config_elem. exists names.
        unfold config_value. by rewrite Hfirst.
    + intros [Hfirst Hfile] Hin'. apply list_elem_of_fmap in Hin' as ([k v] & -> & Hin').
      apply _config_elem in Hin' as (names' & Hin' & Hval). cbn in *.
      assert (names' = names) as ->.
      { exact (assoc_unique config_sources k names' names config_sources_NoDup Hin' Hin). }
      unfold config_value in Hval. rewrite Hfirst, Hfile in Hval. discriminate.
Qed.

Lemma _config_value (env : gmap string string) (config : gmap string ConfigValue)
    (key : string) (names : list string) (v : ConfigValue) :
  (key, names) ∈ config_sources →
  (key, v) ∈ _config env config ↔ config_value env config key names = Some v.
Proof.
  intros Hin. rewrite _config_elem. split; [|by eauto].
  intros (names' & Hin' & Hval).
  by rewrite (assoc_unique config_sources key names names' config_sources_NoDup Hin Hin').
Qed.

(** X2: the environment takes precedence, field by field: when one of a
    field's environment variables is set to a non-empty string, and the ones
    tried before it are unset or empty, the field is that string, whatever the
    file says. *)
Theorem config_env_precedence (env : gmap string string) (config : gmap string ConfigValue)
    (key : string) (earlier : list string) (name : string) (later : list string)
    (v : string) (v' : ConfigValue) :
  (key, earlier ++ name :: later) ∈ config_sources →
  Forall (unset_or_empty env) earlier →
  env !! name = Some v →
  v ≠ "" →
  (key, v') ∈ _config env config ↔ v' = cv_string v.
Proof.
  intros Hin Hearlier Hname Hv. rewrite (_config_value env config key _ v' Hin).
  unfold config_value. rewrite (first_set_spec env earlier name later v Hearlier Hname Hv).
  split; congruence.
Qed.

Lemma config_env_precedence_witness :
  ("accountId", cv_string "12345678") ∈ _config sample_env sample_file.
Proof.
  apply (config_env_precedence sample_env sample_file "accountId" ["LP_ACCOUNTID"]
           "LP_ACCOUNT" [] "12345678" (cv_string "12345678")); [| | | |reflexivity].
  - apply (bool_decide_unpack _). vm_compute. exact I.
  - constructor; [by left|constructor].
  - reflexivity.
  - discriminate.
Defined.

(** X3: a field whose environment variables are all unset or empty gets the
    value of the file unchanged, an empty string or a zero included; an empty
    environment variable does not override the file. *)
Theorem config_file_fallback (env : gmap string string) (config : gmap string ConfigValue)
    (key : string) (names : list string) (v' : ConfigValue) :
  (key, names) ∈ config_sources →
  Forall (unset_or_empty env) names →
  (key, v') ∈ _config env config ↔ config !! key = Some v'.
Proof.
  intros Hin Hnames. rewrite (_config_value env config key _ v' Hin).
  unfold config_value. apply first_set_none in Hnames. by rewrite Hnames.
Qed.

Lemma config_file_fallback_witness :
  ("password", cv_string "") ∈ _config sample_env sample_file.
Proof.
  apply (config_file_fallback sample_env sample_file "password" ["LP_PASSWORD"]
           (cv_string "")).
  - apply (bool_decide_unpack _). vm_compute. exact I.
  - constructor; [by right|constructor].
  - reflexivity.
Defined.

Lemma config_fields_witness :
  ("logLevel" ∉ (_config sample_env sample_file).*1) ∧
  ("token" ∉ (_config sample_env sample_file).*1).
Proof.
  destruct (config_fields sample_env sample_file) as (_ & Hknown & Hout). split.
  - intros Hin. apply Hknown in Hin. revert Hin. apply (bool_decide_unpack _).
    vm_compute. exact I.
  - apply (Hout "token" ["LP_TOKEN"]).
    + apply (bool_decide_unpack _). vm_compute. exact I.
    + split; [|reflexivity]. constructor; [by left|constructor].
Defined.

(** ** Roles and the sample bots' listeners *)

(** X4: [getRole] gives the role of the first participant, in the order of
    the snapshot, whose id is the one asked for, and [undefined] when no
    participant has that id. *)
Theorem getRole_first_match (details : ConversationDetails) (pid : string)
    (earlier : list Participant) (p : Participant) (later : list Participant) :
  Forall (λ q, participant_id q ≠ pid) earlier →
  (participants details = earlier → getRole details pid = None) ∧
  (participants details = earlier ++ p :: later → participant_id p = pid →
   getRole details pid = participant_role p).
Proof.
  intros Hearlier. unfold getRole.
  assert (filter (λ q, participant_id q = pid) earlier = []) as Hnone.
  { induction Hearlier as [|q l Hq _ IH]; [reflexivity|].
    rewrite filter_cons, decide_False by done. exact IH. }
  split.
  - intros ->. by rewrite Hnone.
  - intros -> Hp. rewrite filter_app, Hnone, filter_cons, decide_True by done. reflexivity.
Qed.

Lemma getRole_first_match_witness :
  getRole (conversationDetails (cc_result upsert_with_consumer)) "bot" = Some "ASSIGNED_AGENT".
Proof.
  apply (getRole_first_match (conversationDetails (cc_result upsert_with_consumer)) "bot"
           [ {| participant_id := "u1"; participant_role := Some "CONSUMER" |} ]
           {| participant_id := "bot"; participant_role := Some "ASSIGNED_AGENT" |} []).
  - constructor; [discriminate|constructor].
  - reflexivity.
  - reflexivity.
Defined.

Lemma join_if_absent_run (role : string) (change : ConvChange) (b : Bot) :
  valid_role role = true →
  join_if_absent role change b =
    (Returned (), b,
     if no_role (getRole (conversationDetails (cc_result change)) (agentId b))
     then [Call (updateConversationField (convId (cc_result change))
                   [ParticipantsChange "ADD" role])]
     else []).
Proof.
  intros Hrole. unfold join_if_absent, joinConversation. run_M. rewrite Hrole.
  destruct (no_role _); reflexivity.
Qed.

Lemma join_where_absent (role : string) (event : ConvBody) (b : Bot) :
  valid_role role = true →
  forEach (cb_changes event) (join_if_absent role) b =
    (Returned (), b,
     (λ change, Call (updateConversationField (convId (cc_result change))
                        [ParticipantsChange "ADD" role])) <$> changes_without_me b event).
Proof.
  intros Hrole. rewrite (forEach_stateless _ _ _ _ (λ c, join_if_absent_run role c b Hrole)).
  f_equal. unfold changes_without_me.
  induction (cb_changes event) as [|c l IH]; [reflexivity|].
  cbn [flat_map]. rewrite filter_cons, IH.
  destruct (no_role _); [rewrite decide_True by done|rewrite decide_False by done];
    reflexivity.
Qed.

(** X5: on a conversation notification the manager bot (the reader bot
    likewise, as READER) sends one request to be added as MANAGER for each
    change of the batch, of whatever type, in whose participants it has no
    role, in order, and none for a change in which it has one; it does nothing
    else and leaves the bot unchanged. *)
Theorem listeners_join_where_absent (event : ConvBody) (b : Bot) :
  manager_onConversationNotification event b =
    (Returned (), b,
     Log info "[manager.js] CONVERSATION_NOTIFICATION" ::
     ((λ change, Call (updateConversationField (convId (cc_result change))
                         [ParticipantsChange "ADD" "MANAGER"])) <$> changes_without_me b event)) ∧
  reader_onConversationNotification event b =
    (Returned (), b,
     Log info "[reader.js] CONVERSATION_NOTIFICATION" ::
     ((λ change, Call (updateConversationField (convId (cc_result change))
                         [ParticipantsChange "ADD" "READER"])) <$> changes_without_me b event)).
Proof.
  unfold manager_onConversationNotification, reader_onConversationNotification.
  split; run_M; rewrite join_where_absent by reflexivity; reflexivity.
Qed.

(** ** Reconnection, continued *)

Lemma closure_sequence_partial (k : nat) (rt : Runtime) :
  timeouts_wf rt →
  (k < botConfig.reconnectAttempts)%nat →
  ∃ rt1 tr,
    closure_sequence k rt =
      Some (timeouts k (rt_count rt) botConfig.reconnectInterval 1, rt1, tr) ∧
    newest (rt_timeouts rt) (rt_count rt + k)
      (delay_after k botConfig.reconnectInterval) (S k) rt1 ∧
    reconnects tr = k.
Proof.
  intros Hwf Hk. destruct (onClosed_newest rt Hwf) as [Htrace Hnewest].
  destruct (fires_partial (rt_timeouts rt) k botConfig.reconnectInterval 1 (rt_count rt)
              (onClosed rt).1) as (rt1 & tr & Hfires & Hnext & Hcount); [lia|exact Hnewest|].
  exists rt1, ((onClosed rt).2 ++ tr). rewrite closure_sequence_unfold, Hfires.
  split; [reflexivity|]. split; [exact Hnext|].
  rewrite reconnects_app, Hcount, Htrace. reflexivity.
Qed.

(** X6: a ['connected'] event cancels the reconnect sequence of a closure at
    which no timeout was pending: when it comes after [k] of the 35 timeouts
    of the sequence have fired, the transport's [reconnect] was called [k]
    times, the timeout for attempt [k+1] was the one pending, and after the
    handler none is pending, so that no timeout can fire any more. *)
Theorem connected_cancels_reconnect
    (k : nat) (initialState : string) (subscribeAllConversations : bool)
    (message : string) (rt : Runtime) :
  rt_timeouts rt = [] →
  (k < botConfig.reconnectAttempts)%nat →
  ∃ ts rt1 tr,
    closure_sequence k rt = Some (ts, rt1, tr) ∧
    reconnects tr = k ∧
    rt_timeouts rt1 =
      [timeout_of (rt_count rt + k) (delay_after k botConfig.reconnectInterval) (S k)] ∧
    rt_timeouts (onConnected initialState subscribeAllConversations message rt1).1 = [] ∧
    ∀ id, fire id (onConnected initialState subscribeAllConversations message rt1).1 = None.
Proof.
  intros Hnone Hk.
  pose proof (idle_wf rt Hnone) as Hwf.
  destruct (closure_sequence_partial k rt Hwf Hk) as (rt1 & tr & Hrun & Hnext & Hcount).
  rewrite Hnone in Hnext. destruct Hnext as (Hts & _ & _ & Hhandle).
  assert (rt_timeouts (onConnected initialState subscribeAllConversations message rt1).1 = [])
    as Hidle.
  { unfold onConnected. cbn [fst on_bot rt_timeouts]. rewrite Hhandle.
    cbn [clearTimeout rt_timeouts]. rewrite Hts.
    apply (without_newest [] _ _ _). constructor. }
  eexists _, rt1, tr. split; [exact Hrun|]. split; [exact Hcount|].
  split; [exact Hts|]. split; [exact Hidle|].
  intros id. unfold fire. by rewrite Hidle.
Qed.

Lemma connected_cancels_reconnect_witness :
  ∃ ts rt1 tr,
    closure_sequence 3 (start (init "bot")) = Some (ts, rt1, tr) ∧
    reconnects tr = 3 ∧
    rt_timeouts rt1 = [timeout_of (0 + 3) (delay_after 3 botConfig.reconnectInterval) 4] ∧
    rt_timeouts (onConnected "ONLINE" false "{}" rt1).1 = [] ∧
    ∀ id, fire id (onConnected "ONLINE" false "{}" rt1).1 = None.
Proof.
  apply (connected_cancels_reconnect 3 "ONLINE" false "{}" (start (init "bot")));
    [reflexivity|unfold botConfig.reconnectAttempts; lia].
Defined.

(** X7: in the sequence started by a closure at which no timeout is pending,
    the first timeout is set to 5000 ms, each later one to more than the one
    before, and all of them to less than 2461118 ms. *)
Theorem reconnect_timeouts_grow (rt : Runtime) :
  rt_timeouts rt = [] →
  ∃ t ts rt' tr,
    closure_sequence 35 rt = Some (t :: ts, rt', tr) ∧
    timeout_ms t = 5000%float ∧
    growing_below 2461118 (timeout_ms t) ts = true.
Proof.
  intros Hnone.
  destruct (closure_sequence_run rt (idle_wf rt Hnone)) as (rt' & tr & Hrun & _).
  eexists _, _, rt', tr. split; [exact Hrun|]. split; vm_compute; reflexivity.
Qed.

Lemma reconnect_timeouts_grow_witness :
  ∃ t ts rt' tr,
    closure_sequence 35 (start (init "bot")) = Some (t :: ts, rt', tr) ∧
    timeout_ms t = 5000%float ∧
    growing_below 2461118 (timeout_ms t) ts = true.
Proof. apply (reconnect_timeouts_grow (start (init "bot"))). reflexivity. Defined.

(** X22: a second closure before the first timeout fired starts a second
    sequence beside the first, and a ['connected'] event cancels the one set
    last alone: from a state without pending timeouts, two closures leave two
    timeouts pending, the connection leaves the first closure's pending, and
    when that one fires the transport's [reconnect] is called and the timeout
    for attempt 2 is set. *)
Theorem connected_leaves_earlier_sequence
    (initialState : string) (subscribeAllConversations : bool) (message : string)
    (rt : Runtime) :
  rt_timeouts rt = [] →
  let first := timeout_of (rt_count rt) botConfig.reconnectInterval 1 in
  let second := timeout_of (S (rt_count rt)) botConfig.reconnectInterval 1 in
  let rt1 := (onClosed (onClosed rt).1).1 in
  let rt2 := (onConnected initialState subscribeAllConversations message rt1).1 in
  rt_timeouts rt1 = [first; second] ∧
  rt_timeouts rt2 = [first] ∧
  ∃ rt3,
    fire (rt_count rt) rt2 =
      Some (first, rt3, [Call reconnect; Log warn "[bot.js] reconnecting"]) ∧
    rt_timeouts rt3 =
      [timeout_of (S (S (rt_count rt)))
         (botConfig.reconnectInterval * botConfig.reconnectRatio)%float 2].
Proof.
  intros Hnone. cbv zeta.
  assert (rt_timeouts (onClosed (onClosed rt).1).1 =
          [timeout_of (rt_count rt) botConfig.reconnectInterval 1;
           timeout_of (S (rt_count rt)) botConfig.reconnectInterval 1]) as Hboth.
  { unfold onClosed, _reconnect, setTimeout.
    cbn [fst on_bot rt_timeouts rt_bot rt_count]. by rewrite Hnone. }
  assert (rt_timeouts (onConnected initialState subscribeAllConversations message
                         (onClosed (onClosed rt).1).1).1 =
          [timeout_of (rt_count rt) botConfig.reconnectInterval 1]) as Hts.
  { change (without (S (rt_count rt)) (rt_timeouts (onClosed (onClosed rt).1).1) =
            [timeout_of (rt_count rt) botConfig.reconnectInterval 1]).
    rewrite Hboth.
    apply (without_newest [timeout_of (rt_count rt) botConfig.reconnectInterval 1]
             (S (rt_count rt))).
    repeat constructor. }
  split; [exact Hboth|]. split; [exact Hts|]. unfold fire. rewrite Hts.
  pose proof (find_newest [] (rt_count rt) botConfig.reconnectInterval 1 (Forall_nil_2 _))
    as Hfind.
  pose proof (without_newest [] (rt_count rt) botConfig.reconnectInterval 1 (Forall_nil_2 _))
    as Hrest.
  cbn [app] in Hfind, Hrest. rewrite Hfind, Hrest.
  eexists. split; reflexivity.
Qed.

Lemma connected_leaves_earlier_sequence_witness :
  let first := timeout_of 0 botConfig.reconnectInterval 1 in
  let second := timeout_of 1 botConfig.reconnectInterval 1 in
  let rt1 := (onClosed (onClosed (start (init "bot"))).1).1 in
  let rt2 := (onConnected "ONLINE" false "{}" rt1).1 in
  rt_timeouts rt1 = [first; second] ∧
  rt_timeouts rt2 = [first] ∧
  ∃ rt3,
    fire 0 rt2 = Some (first, rt3, [Call reconnect; Log warn "[bot.js] reconnecting"]) ∧
    rt_timeouts rt3 =
      [timeout_of 2 (botConfig.reconnectInterval * botConfig.reconnectRatio)%float 2].
Proof.
  apply (connected_leaves_earlier_sequence "ONLINE" false "{}" (start (init "bot"))).
  reflexivity.
Defined.

(** ** Messaging events, continued *)

Lemma respond_step_stems (b : Bot) (body : MsgBody) (P : ContentRecord -> Prop)
    (respond : list (string * ContentRecord)) (change : MsgChange) :
  (∀ contentType message,
     tracked b (mc_dialogId change) = true →
     mc_event change = ContentEvent contentType message →
     mc_originatorId change ≠ agentId b →
     P (record_of body change message)) →
  Forall (λ kv, P kv.2) respond →
  Forall (λ kv, P kv.2) (respond_step b body respond change).
Proof.
  intros Hnew Hr. unfold respond_step.
  destruct (tracked b (mc_dialogId change)) eqn:Htr; [|done].
  destruct (mc_event change) as [ct message| |status seqs|] eqn:Hev; try done.
  - destruct (decide (mc_originatorId change ≠ agentId b)); [|done].
    apply obj_set_Forall; [|done]. cbn. by eapply Hnew.
  - destruct (decide (mc_originatorId change = agentId b)); [|done].
    apply (obj_delete_all_invariant (Forall (λ kv, P kv.2))); [|done].
    intros k o. apply obj_delete_Forall.
Qed.

Lemma respond_of_stems (b : Bot) (body : MsgBody) :
  Forall (λ kv, stems_from_batch b body kv.2) (respond_of b body).
Proof.
  unfold respond_of.
  assert (∀ todo r, (∀ c, c ∈ todo → c ∈ mb_changes body) →
            Forall (λ kv, stems_from_batch b body kv.2) r →
            Forall (λ kv, stems_from_batch b body kv.2) (foldl (respond_step b body) r todo))
    as Hfold.
  { induction todo as [|c todo IH]; intros r Hsub Hr; [exact Hr|].
    cbn [foldl]. apply IH; [intros c' Hc'; apply Hsub; by right|].
    apply respond_step_stems; [|exact Hr].
    intros ct message Htr Hev Hne. exists c, ct, message.
    split; [apply Hsub; by left|done]. }
  apply Hfold; [done|constructor].
Qed.

(** The notifications a batch emits are the records of [respond], or none. *)
Lemma batch_emits (body : MsgBody) (b : Bot) :
  content_notifications (trace (onMessagingEventNotification body b)) = (respond_of b body).*2 ∨
  content_notifications (trace (onMessagingEventNotification body b)) = [].
Proof.
  rewrite onMessagingEventNotification_run.
  destruct (tracked b (mb_dialogId body)).
  - cbn zeta. unfold trace at 1 3. cbn [snd]. rewrite content_notifications_app.
    destruct (messaging_log_only_logs body) as [-> _]. cbn [app].
    apply pending_messages_emitted_or_none.
  - right. apply messaging_log_only_logs.
Qed.

(** X8: every content notification a batch emits is the record of a content
    event of that batch by somebody else, on a change whose own dialog id is
    tracked; its dialog id is the one the batch is keyed by. *)
Theorem emitted_content_stems_from_batch (body : MsgBody) (b : Bot) (ce : ContentRecord) :
  ce ∈ content_notifications (trace (onMessagingEventNotification body b)) →
  stems_from_batch b body ce ∧ ce_dialogId ce = mb_dialogId body.
Proof.
  intros Hin. assert (stems_from_batch b body ce) as Hstems.
  { destruct (batch_emits body b) as [Heq|Heq]; rewrite Heq in Hin.
    - apply list_elem_of_fmap in Hin as (kv & -> & Hin).
      by apply (proj1 (Forall_forall _ _) (respond_of_stems b body)) in Hin.
    - by apply elem_of_nil in Hin. }
  split; [exact Hstems|]. by destruct Hstems as (c & ct & m & _ & _ & _ & _ & ->).
Qed.

Lemma emitted_content_stems_from_batch_witness :
  stems_from_batch tracking_C1 content_batch (record_of content_batch content_7 "hello") ∧
  ce_dialogId (record_of content_batch content_7 "hello") = "C1".
Proof.
  apply (emitted_content_stems_from_batch content_batch tracking_C1). vm_compute. by left.
Defined.

Lemma respond_sequences (dialogId : string) (respond : list (string * ContentRecord)) :
  respond_wf dialogId respond → NoDup (ce_sequence <$> respond.*2).
Proof.
  intros [Hnd Hkeys]. apply (NoDup_fmap_1 (respond_key dialogId)).
  assert ((respond_key dialogId <$> (ce_sequence <$> respond.*2)) = respond.*1) as ->; [|done].
  clear Hnd. induction Hkeys as [|[k ce] l [Hk _] _ IH]; [reflexivity|].
  cbn in *. by rewrite IH, Hk.
Qed.

(** X9: a batch emits at most one content notification per sequence number,
    however often the batch repeats a message. *)
Theorem emitted_sequences_distinct (body : MsgBody) (b : Bot) :
  NoDup (ce_sequence <$> content_notifications (trace (onMessagingEventNotification body b))).
Proof.
  destruct (batch_emits body b) as [-> | ->]; [|constructor].
  apply (respond_sequences (mb_dialogId body)), respond_of_wf.
Qed.

Lemma pending_messages_calls (body : MsgBody) (b : Bot)
    (respond : list (string * ContentRecord)) :
  respond_wf (mb_dialogId body) respond →
  Forall (is_read_receipt (mb_dialogId body))
    (calls (trace (forEach respond (onPendingMessage body) b))).
Proof.
  intros [_ Hkeys].
  destruct (myConversations b !! mb_dialogId body) as [tc|] eqn:Hlook;
    [destruct (tc_conversationDetails tc) as [details|] eqn:Hdet|].
  - rewrite (pending_messages_run body b tc details respond Hlook Hdet).
    unfold trace. cbn [snd]. rewrite pending_messages_marked.
    destruct (decide _); [|constructor]. apply Forall_fmap.
    eapply Forall_impl; [exact Hkeys|]. intros [k ce] [_ Hd]. cbn in *.
    exists (ce_sequence ce). by rewrite Hd.
  - destruct respond as [|entry respond]; [constructor|].
    cbn [forEach]. unfold onPendingMessage, getRole_in. run_M.
    rewrite Hlook, Hdet. constructor.
  - destruct respond as [|entry respond]; [constructor|].
    cbn [forEach]. unfold onPendingMessage, getRole_in. run_M.
    rewrite Hlook. constructor.
Qed.

Lemma messaging_calls (body : MsgBody) (b : Bot) :
  Forall (is_read_receipt (mb_dialogId body))
    (calls (trace (onMessagingEventNotification body b))).
Proof.
  rewrite onMessagingEventNotification_run.
  destruct (tracked b (mb_dialogId body)).
  - cbn zeta. unfold trace at 1. cbn [snd]. rewrite calls_app.
    destruct (messaging_log_only_logs body) as [_ ->]. cbn [app].
    apply pending_messages_calls, respond_of_wf.
  - destruct (messaging_log_only_logs body) as [_ Hcalls]. unfold trace. cbn [snd].
    rewrite Hcalls. constructor.
Qed.

(** X10: a messaging-event notification never changes the bot, whether its
    handler returns or throws, and the only requests it sends are read
    receipts, each for one message of the conversation the batch is keyed
    by. *)
Theorem messaging_only_sends_read_receipts (body : MsgBody) (b : Bot) :
  final (onMessagingEventNotification body b) = b ∧
  Forall (is_read_receipt (mb_dialogId body))
    (calls (trace (onMessagingEventNotification body b))).
Proof. split; [apply onMessagingEventNotification_readonly|apply messaging_calls]. Qed.

(** X11: on a batch keyed by a conversation with its detail snapshot the
    handler returns; when the bot is the ASSIGNED_AGENT of that conversation
    it sends one read receipt per content notification it emits, in the same
    order and for that message's sequence number alone, and when it has
    another role or none it sends nothing. *)
Theorem read_receipts_follow_notifications (body : MsgBody) (b : Bot)
    (tc : TrackedConversation) (details : ConversationDetails) :
  myConversations b !! mb_dialogId body = Some tc →
  tc_conversationDetails tc = Some details →
  outcome (onMessagingEventNotification body b) = Returned () ∧
  calls (trace (onMessagingEventNotification body b)) =
    if decide (getRole details (agentId b) = Some "ASSIGNED_AGENT") then
      (λ ce, publishEvent (mb_dialogId body) (AcceptStatusEvent "READ" [ce_sequence ce]))
        <$> content_notifications (trace (onMessagingEventNotification body b))
    else [].
Proof.
  intros Hlook Hdet. rewrite (batch_run body b tc details Hlook Hdet).
  split; [reflexivity|]. unfold trace. cbn [snd].
  rewrite calls_app, content_notifications_app, pending_messages_marked,
    pending_messages_emitted.
  destruct (messaging_log_only_logs body) as [-> ->]. cbn [app].
  destruct (decide _); [|reflexivity].
  destruct (respond_of_wf b body) as [_ Hkeys].
  induction Hkeys as [|[k ce] l [_ Hd] _ IH]; [reflexivity|].
  cbn in *. by rewrite IH, Hd.
Qed.

Lemma read_receipts_follow_notifications_witness :
  outcome (onMessagingEventNotification content_batch tracking_C1) = Returned () ∧
  calls (trace (onMessagingEventNotification content_batch tracking_C1)) =
    [publishEvent "C1" (AcceptStatusEvent "READ" [7%N])].
Proof.
  apply (read_receipts_follow_notifications content_batch tracking_C1
           (refreshed empty_object (cc_result upsert_with_consumer))
           (conversationDetails (cc_result upsert_with_consumer))); reflexivity.
Defined.

(** X12: when the entry of the conversation has no detail snapshot, as the
    entry a first upsert without a consumer leaves, a batch in which a content
    event by somebody else is followed by no receipt of the bot for it makes
    the handler throw a [TypeError] at the first pending message: nothing is
    emitted and no request is sent. *)
Theorem pending_message_without_details_throws
    (b : Bot) (body : MsgBody) (tc : TrackedConversation) (s : N)
    (before : list MsgChange) (content : MsgChange) (after : list MsgChange) :
  on_tracked_conversation b body = true →
  myConversations b !! mb_dialogId body = Some tc →
  tc_conversationDetails tc = None →
  mb_changes body = before ++ content :: after →
  content_from_other b s content = true →
  Forall (λ c, read_receipt_by_me b s c = false) after →
  onMessagingEventNotification body b =
    (Threw (TypeError "Cannot read property 'participants' of undefined"), b,
     messaging_log body).
Proof.
  intros Hbatch Hlook Hdet Hsplit Hcontent Hafter.
  pose proof (content_last_pending b body s before content after Hbatch Hsplit Hcontent Hafter)
    as Hpending.
  rewrite onMessagingEventNotification_run.
  assert (tracked b (mb_dialogId body) = true) as -> by (apply tracked_true; eauto).
  unfold pending in Hpending. destruct (respond_of b body) as [|entry respond].
  { by apply elem_of_nil in Hpending. }
  cbn [forEach]. unfold onPendingMessage, getRole_in. run_M. rewrite Hlook, Hdet.
  cbn. by rewrite app_nil_r.
Qed.

Lemma pending_message_without_details_throws_witness :
  onMessagingEventNotification content_batch half_tracking_C1 =
    (Threw (TypeError "Cannot read property 'participants' of undefined"), half_tracking_C1,
     messaging_log content_batch).
Proof.
  apply (pending_message_without_details_throws half_tracking_C1 content_batch
           empty_object 7 [] content_7 []); try reflexivity.
  constructor.
Defined.

Lemma respond_of_tracked_changes (b : Bot) (body : MsgBody) :
  respond_of b (tracked_changes b body) = respond_of b body.
Proof.
  unfold respond_of.
  change (respond_step b (tracked_changes b body)) with (respond_step b body).
  unfold tracked_changes. cbn [mb_changes].
  generalize (@nil (string * ContentRecord)).
  induction (mb_changes body) as [|c l IH]; intros r; [reflexivity|].
  rewrite filter_cons. cbn [foldl].
  destruct (decide (tracked b (mc_dialogId c) = true)) as [Htr|Htr].
  - cbn [foldl]. apply IH.
  - rewrite IH. f_equal. unfold respond_step.
    apply not_true_is_false in Htr. by rewrite Htr.
Qed.

Lemma batch_observations (body : MsgBody) (b : Bot) :
  let r := forEach (respond_of b body) (onPendingMessage body) b in
  outcome (onMessagingEventNotification body b) =
    (if tracked b (mb_dialogId body) then outcome r else Returned ()) ∧
  content_notifications (trace (onMessagingEventNotification body b)) =
    (if tracked b (mb_dialogId body) then content_notifications (trace r) else []) ∧
  calls (trace (onMessagingEventNotification body b)) =
    (if tracked b (mb_dialogId body) then calls (trace r) else []).
Proof.
  cbn zeta. rewrite onMessagingEventNotification_run.
  destruct (messaging_log_only_logs body) as [Hc Hk].
  destruct (tracked b (mb_dialogId body)); unfold outcome, trace; cbn [fst snd].
  - by rewrite content_notifications_app, calls_app, Hc, Hk.
  - by rewrite Hc, Hk.
Qed.

(** X13: the changes of a batch whose own dialog id is not tracked have no
    effect, wherever they stand in the batch: with or without them the handler
    ends the same way, emits the same content notifications and sends the
    same requests. *)
Theorem untracked_changes_are_skipped (body : MsgBody) (b : Bot) :
  outcome (onMessagingEventNotification body b) =
    outcome (onMessagingEventNotification (tracked_changes b body) b) ∧
  content_notifications (trace (onMessagingEventNotification body b)) =
    content_notifications (trace (onMessagingEventNotification (tracked_changes b body) b)) ∧
  calls (trace (onMessagingEventNotification body b)) =
    calls (trace (onMessagingEventNotification (tracked_changes b body) b)).
Proof.
  destruct (batch_observations body b) as (-> & -> & ->).
  destruct (batch_observations (tracked_changes b body) b) as (-> & -> & ->).
  rewrite respond_of_tracked_changes. done.
Qed.

(** ** Conversation changes, continued *)

Ltac change_cases change b :=
  let type := fresh "type" in
  let result := fresh "result" in
  let tc := fresh "tc" in
  let Hlook := fresh "Hlook" in
  let Hcs := fresh "Hcs" in
  destruct change as [type result];
  destruct (decide (type = "UPSERT")) as [->|?];
  [ destruct (myConversations b !! convId result) as [tc|] eqn:Hlook;
    [ rewrite (later_upsert result b tc Hlook)
    | pose proof (proj2 (tracked_false b (convId result)) Hlook) as Htr;
      destruct (consumers (conversationDetails result)) as [|? ?] eqn:Hcs;
      [ rewrite (first_upsert_without_consumer result b Htr Hcs)
      | rewrite (first_upsert result b _ _ Htr Hcs) ] ]
  | destruct (decide (type = "DELETE")) as [->|?];
    [ rewrite delete_change | rewrite other_change by done ] ].

Lemma forEach_trace_Forall {A} (P : Effect -> Prop) (f : A -> M unit) (l : list A) :
  (∀ x b, Forall P (trace (f x b))) → ∀ b, Forall P (trace (forEach l f b)).
Proof.
  intros Hf. induction l as [|x l IH]; intros b; [constructor|].
  cbn [forEach]. unfold mbind, M_bind, trace. specialize (Hf x b). revert Hf. unfold trace.
  destruct (f x b) as [[[[]|e] b1] t1]; cbn [snd]; [|done].
  intros Ht1. specialize (IH b1). revert IH. unfold trace.
  destruct (forEach l f b1) as [[o b2] t2]. cbn [snd]. intros Ht2.
  by apply Forall_app.
Qed.

Lemma emitted_silent (t : list Effect) : Forall silent t → emitted t = [].
Proof.
  induction 1 as [|e t He _ IH]; [reflexivity|]. destruct e; cbn in *; done.
Qed.

Lemma emitted_app (t1 t2 : list Effect) : emitted (t1 ++ t2) = emitted t1 ++ emitted t2.
Proof. unfold emitted. apply omap_app. Qed.

Lemma conversation_change_silent (change : ConvChange) (b : Bot) :
  Forall silent (trace (onConversationChange change b)).
Proof. change_cases change b; repeat constructor. Qed.

Lemma forEach_app {A} (f : A -> M unit) (l1 l2 : list A) (b : Bot) :
  forEach (l1 ++ l2) f b = (forEach l1 f;; forEach l2 f) b.
Proof.
  revert b. induction l1 as [|x l1 IH]; intros b.
  - cbn. unfold mbind, M_bind, mret, M_ret. by destruct (forEach l2 f b) as [[o b2] t2].
  - cbn [app forEach]. unfold mbind, M_bind in *.
    destruct (f x b) as [[[[]|e] b1] t1]; [|reflexivity].
    rewrite IH. destruct (forEach l1 f b1) as [[[[]|e] b2] t2]; [|reflexivity].
    destruct (forEach l2 f b2) as [[o b3] t3]. by rewrite app_assoc.
Qed.

(** X14: the conversation-change handler emits one event, the conversation
    notification with the batch as it came, as the last thing it does, when
    every change was handled to its end; when the handling of a change throws
    it emits nothing. *)
Theorem conversation_notification_emitted_last (body : ConvBody) (b : Bot) :
  let r := onExConversationChangeNotification body b in
  match outcome r with
  | Returned _ =>
      ∃ t, trace r = t ++ [Emit (CONVERSATION_NOTIFICATION body)] ∧ emitted t = []
  | Threw _ => emitted (trace r) = []
  end.
Proof.
  cbn zeta. unfold onExConversationChangeNotification. run_M.
  pose proof (forEach_trace_Forall silent onConversationChange (cb_changes body)
                conversation_change_silent b) as Hsilent.
  revert Hsilent. unfold trace.
  destruct (forEach (cb_changes body) onConversationChange b) as [[[[]|e] b1] t1];
    cbn [fst snd]; intros Hsilent.
  - exists (Log info "[bot.js] cqm.ExConversationChangeNotification" :: t1).
    split; [reflexivity|]. by apply emitted_silent; constructor.
  - by apply emitted_silent; constructor.
Qed.

(** X15: the first upsert of a conversation without a consumer ends the
    handling of its batch: the handler throws, the changes after it are not
    looked at (the run is the one of the batch cut after that change), no
    conversation notification is emitted, and the bot is left as that change
    left it, with an empty entry for the conversation. *)
Theorem failing_upsert_aborts_batch
    (handled : list ConvChange) (result : ConvResult) (rest : list ConvChange) (b : Bot) :
  let upsert := {| cc_type := "UPSERT"; cc_result := result |} in
  let before := forEach handled onConversationChange b in
  outcome before = Returned () →
  tracked (final before) (convId result) = false →
  has_consumer (conversationDetails result) = false →
  let r := onExConversationChangeNotification {| cb_changes := handled ++ upsert :: rest |} b in
  outcome r = Threw (TypeError "Cannot read property 'id' of undefined") ∧
  final r = set_myConversations (insert (convId result) empty_object) (final before) ∧
  emitted (trace r) = [] ∧
  trace r = trace (onExConversationChangeNotification {| cb_changes := handled ++ [upsert] |} b).
Proof.
  cbn zeta. intros Hret Htr Hc. apply has_consumer_false in Hc.
  unfold onExConversationChangeNotification. cbn [cb_changes]. run_M.
  rewrite !forEach_app. cbn [forEach]. unfold mbind, M_bind.
  pose proof (forEach_trace_Forall silent onConversationChange handled
                conversation_change_silent b) as Hsilent.
  revert Hret Htr Hsilent. unfold outcome, final, trace.
  destruct (forEach handled onConversationChange b) as [[o b1] t1]. cbn [fst snd].
  intros -> Htr Hsilent.
  rewrite (first_upsert_without_consumer result b1 Htr Hc).
  split; [reflexivity|]. split; [reflexivity|]. split; [|reflexivity].
  apply emitted_silent. cbn [snd]. constructor; [done|].
  apply Forall_app. split; [exact Hsilent|]. repeat constructor.
Qed.

Lemma failing_upsert_aborts_batch_witness :
  let r := onExConversationChangeNotification
             {| cb_changes := [] ++ upsert_without_consumer :: [upsert_C2] |} (init "bot") in
  outcome r = Threw (TypeError "Cannot read property 'id' of undefined") ∧
  final r = set_myConversations (insert "C1" empty_object) (init "bot") ∧
  emitted (trace r) = [] ∧
  trace r = trace (onExConversationChangeNotification
                     {| cb_changes := [] ++ [upsert_without_consumer] |} (init "bot")).
Proof.
  apply (failing_upsert_aborts_batch [] (cc_result upsert_without_consumer) [upsert_C2]
           (init "bot")); reflexivity.
Defined.

Lemma conversation_change_frame (change : ConvChange) (id : string)
    (entry : option TrackedConversation) :
  convId (cc_result change) ≠ id →
  preserves (λ b, myConversations b !! id = entry) (onConversationChange change).
Proof.
  intros Hne b Hb. rewrite conversation_change_final.
  unfold final, set_myConversations, conversations_after. cbn.
  destruct (decide (cc_type change = "UPSERT")).
  - destruct (myConversations b !! convId (cc_result change));
      [|destruct (has_consumer _)]; by rewrite lookup_insert_ne.
  - destruct (decide (cc_type change = "DELETE")); [|done]. by rewrite lookup_delete_ne.
Qed.

(** X16: a batch of conversation changes leaves alone the entry, or the
    absence, of every conversation that none of its changes is about, whether
    the handler returns or throws. *)
Theorem other_conversations_untouched (body : ConvBody) (b : Bot) (id : string) :
  Forall (λ change, convId (cc_result change) ≠ id) (cb_changes body) →
  myConversations (final (onExConversationChangeNotification body b)) !! id =
    myConversations b !! id.
Proof.
  intros Hother.
  assert (preserves (λ b', myConversations b' !! id = myConversations b !! id)
            (onExConversationChangeNotification body)) as Hkeep; [|by apply Hkeep].
  unfold onExConversationChangeNotification.
  apply bind_preserves; [apply readonly_preserves; intros b'; reflexivity|]. intros _.
  apply bind_preserves; [|intros _; apply readonly_preserves; intros b'; reflexivity].
  induction Hother as [|change l Hne _ IH]; [intros b' Hb'; exact Hb'|].
  cbn [forEach]. apply bind_preserves; [by apply conversation_change_frame|].
  intros _. exact IH.
Qed.

Lemma other_conversations_untouched_witness :
  myConversations (final (onExConversationChangeNotification
                            {| cb_changes := [upsert_C2] |} tracking_C1)) !! "C1" =
    myConversations tracking_C1 !! "C1".
Proof.
  apply (other_conversations_untouched {| cb_changes := [upsert_C2] |} tracking_C1 "C1").
  constructor; [discriminate|constructor].
Defined.

(** X17: an upsert that was handled to its end and is delivered again changes
    nothing: the bot stays the same and no request is sent, the conversation
    being tracked by then. *)
Theorem repeated_upsert_changes_nothing (result : ConvResult) (b : Bot) :
  let upsert := {| cc_type := "UPSERT"; cc_result := result |} in
  outcome (onConversationChange upsert b) = Returned () →
  onConversationChange upsert (final (onConversationChange upsert b)) =
    (Returned (), final (onConversationChange upsert b),
     [Log silly "[bot.js] cqm.ExConversationChangeNotification change"]).
Proof.
  cbn zeta. intros Hret.
  assert (∃ tc, final (onConversationChange {| cc_type := "UPSERT"; cc_result := result |} b) =
                  set_myConversations (insert (convId result) (refreshed tc result)) b)
    as [tc ->].
  { revert Hret. destruct (myConversations b !! convId result) as [tc|] eqn:Hlook.
    - rewrite (later_upsert result b tc Hlook). eauto.
    - apply tracked_false in Hlook.
      destruct (consumers (conversationDetails result)) as [|consumer others] eqn:Hcs.
      + by rewrite (first_upsert_without_consumer result b Hlook Hcs).
      + rewrite (first_upsert result b consumer others Hlook Hcs). eauto. }
  rewrite (later_upsert result _ (refreshed tc result)).
  - unfold set_myConversations. cbn. by rewrite insert_insert_eq.
  - cbn. apply lookup_insert_eq.
Qed.

Lemma repeated_upsert_changes_nothing_witness :
  onConversationChange upsert_with_consumer tracking_C1 =
    (Returned (), tracking_C1,
     [Log silly "[bot.js] cqm.ExConversationChangeNotification change"]).
Proof.
  apply (repeated_upsert_changes_nothing (cc_result upsert_with_consumer) (init "bot")).
  reflexivity.
Defined.

(** X18: a later upsert replaces the whole entry but the profile field: the
    detail snapshot and the last-content summary are those of the new
    notification, so a notification without a last content event erases the
    summary kept before. *)
Theorem later_upsert_replaces_summary (result : ConvResult) (b : Bot)
    (tc : TrackedConversation) :
  myConversations b !! convId result = Some tc →
  lastContentEventNotification result = None →
  ∃ tc',
    myConversations (final (onConversationChange
                              {| cc_type := "UPSERT"; cc_result := result |} b))
      !! convId result = Some tc' ∧
    tc_lastContentEventNotification tc' = None ∧
    tc_conversationDetails tc' = Some (conversationDetails result) ∧
    tc_consumerProfile tc' = tc_consumerProfile tc.
Proof.
  intros Hlook Hlast. rewrite (later_upsert result b tc Hlook).
  exists (refreshed tc result). unfold final, set_myConversations. cbn.
  rewrite lookup_insert_eq, Hlast. done.
Qed.

Lemma later_upsert_replaces_summary_witness :
  ∃ tc',
    myConversations (final (onConversationChange upsert_with_consumer
                              (final (onConversationChange upsert_again tracking_C1))))
      !! "C1" = Some tc' ∧
    tc_lastContentEventNotification tc' = None ∧
    tc_conversationDetails tc' = Some (conversationDetails (cc_result upsert_with_consumer)) ∧
    tc_consumerProfile tc' = None.
Proof.
  apply (later_upsert_replaces_summary (cc_result upsert_with_consumer)
           (final (onConversationChange upsert_again tracking_C1))
           (refreshed (refreshed empty_object (cc_result upsert_with_consumer))
              (cc_result upsert_again))); reflexivity.
Defined.

(** X19: a delete for a conversation that is not tracked changes nothing and
    does not throw. *)
Theorem delete_untracked_changes_nothing (result : ConvResult) (b : Bot) :
  tracked b (convId result) = false →
  onConversationChange {| cc_type := "DELETE"; cc_result := result |} b =
    (Returned (), b,
     [Log silly "[bot.js] cqm.ExConversationChangeNotification change";
      Log silly "[bot.js] removed from myConversations"]).
Proof.
  intros Htr. apply tracked_false in Htr. rewrite delete_change.
  unfold set_myConversations. rewrite delete_id by done. by destruct b.
Qed.

Lemma delete_untracked_changes_nothing_witness :
  onConversationChange delete_C1 (init "bot") =
    (Returned (), init "bot",
     [Log silly "[bot.js] cqm.ExConversationChangeNotification change";
      Log silly "[bot.js] removed from myConversations"]).
Proof.
  apply (delete_untracked_changes_nothing (cc_result upsert_with_consumer) (init "bot")).
  reflexivity.
Defined.

(** X20: after a delete, the next upsert of the conversation is a first
    upsert again: whatever was tracked before, it sends one profile request
    and one messaging-event subscription, and the entry is built anew from
    that notification alone. *)
Theorem upsert_after_delete_subscribes_again (deleted result : ConvResult) (b : Bot) :
  convId deleted = convId result →
  has_consumer (conversationDetails result) = true →
  let b1 := final (onConversationChange {| cc_type := "DELETE"; cc_result := deleted |} b) in
  let r := onConversationChange {| cc_type := "UPSERT"; cc_result := result |} b1 in
  outcome r = Returned () ∧
  length (profile_fetches (trace r)) = 1 ∧
  subscriptions (trace r) = [convId result] ∧
  myConversations (final r) !! convId result = Some (refreshed empty_object result).
Proof.
  cbn zeta. intros Hid Hc. rewrite delete_change.
  set (b1 := final _).
  assert (tracked b1 (convId result) = false) as Htr.
  { apply tracked_false. unfold b1, final, set_myConversations. cbn.
    rewrite Hid. apply lookup_delete_eq. }
  apply has_consumer_consumers in Hc.
  destruct (consumers (conversationDetails result)) as [|consumer others] eqn:Hcs; [done|].
  rewrite (first_upsert result b1 consumer others Htr Hcs).
  split; [reflexivity|]. split; [reflexivity|]. split; [reflexivity|].
  unfold final, set_myConversations. cbn. apply lookup_insert_eq.
Qed.

Lemma upsert_after_delete_subscribes_again_witness :
  let b1 := final (onConversationChange delete_C1 tracking_C1) in
  let r := onConversationChange upsert_with_consumer b1 in
  outcome r = Returned () ∧
  length (profile_fetches (trace r)) = 1 ∧
  subscriptions (trace r) = ["C1"] ∧
  myConversations (final r) !! "C1" =
    Some (refreshed empty_object (cc_result upsert_with_consumer)).
Proof.
  apply (upsert_after_delete_subscribes_again (cc_result upsert_with_consumer)
           (cc_result upsert_with_consumer) tracking_C1); reflexivity.
Defined.

(** ** Subscriptions over a session *)

Lemma subscriptions_for_app (id : string) (t1 t2 : list Effect) :
  subscriptions_for id (t1 ++ t2) = subscriptions_for id t1 ++ subscriptions_for id t2.
Proof.
  unfold subscriptions_for, subscriptions. by rewrite calls_app, omap_app, filter_app.
Qed.

Lemma conversation_change_subscriptions (change : ConvChange) (b : Bot) (id : string) :
  outcome (onConversationChange change b) = Returned () →
  subscriptions_for id (trace (onConversationChange change b)) =
    if is_upsert_of id change && negb (tracked b id) then [id] else [].
Proof.
  unfold is_upsert_of, subscriptions_for. change_cases change b; cbn [cc_type cc_result];
    try discriminate; intros _; cbn.
  - destruct (decide (convId result = id)) as [<-|Hne].
    + assert (tracked b (convId result) = true) as -> by (apply tracked_true; eauto).
      by rewrite andb_false_r.
    + rewrite (bool_decide_eq_false_2 _ Hne). by rewrite andb_false_r.
  - destruct (decide (convId result = id)) as [<-|Hne].
    + rewrite !bool_decide_eq_true_2 by done. by rewrite Htr.
    + rewrite (bool_decide_eq_false_2 (convId result = id)) by done.
      by rewrite andb_false_r.
  - by rewrite (bool_decide_eq_false_2 ("DELETE" = "UPSERT")) by done.
  - by rewrite (bool_decide_eq_false_2 (type = "UPSERT")) by done.
Qed.

Lemma last_word_no_delete (id : string) (changes : list ConvChange) (before : bool) :
  no_delete_of id changes →
  last_word id changes before = before || existsb (is_upsert_of id) changes.
Proof.
  intros Hnd. revert before. induction Hnd as [|c l Hc _ IH]; intros before.
  - cbn. by rewrite orb_false_r.
  - change (last_word id (c :: l) before)
      with (last_word id l (if is_upsert_of id c then true
                            else if is_delete_of id c then false else before)).
    rewrite IH, Hc. cbn [existsb]. destruct (is_upsert_of id c), before; reflexivity.
Qed.

Lemma changes_subscriptions (changes : list ConvChange) (b : Bot) (id : string) :
  outcome (forEach changes onConversationChange b) = Returned () →
  no_delete_of id changes →
  length (subscriptions_for id (trace (forEach changes onConversationChange b))) =
    if tracked b id then 0 else if existsb (is_upsert_of id) changes then 1 else 0.
Proof.
  revert b. induction changes as [|c l IH]; intros b Hret Hnd.
  - cbn. by destruct (tracked b id).
  - apply Forall_cons in Hnd as [Hc Hnd].
    apply forEach_returned_cons in Hret as (Hfirst & Hrest & _ & ->).
    rewrite subscriptions_for_app, length_app, (IH _ Hrest Hnd),
      (conversation_change_subscriptions c b id Hfirst), conversation_change_tracked, Hc.
    cbn [existsb]. destruct (is_upsert_of id c), (tracked b id); cbn;
      by destruct (existsb _ l).
Qed.

Lemma handle_subscriptions (i : Input) (b : Bot) (id : string) :
  outcome (handle i b) = Returned () →
  no_delete_of id (conversation_changes [i]) →
  length (subscriptions_for id (trace (handle i b))) =
    if tracked b id then 0
    else if existsb (is_upsert_of id) (conversation_changes [i]) then 1 else 0.
Proof.
  destruct i as [body|body|conv e resp]; cbn [handle conversation_changes flat_map].
  - rewrite app_nil_r. unfold onExConversationChangeNotification. intros Hret Hnd.
    apply bind_returned in Hret as ([] & _ & Hret & _ & ->).
    change (final (log info "[bot.js] cqm.ExConversationChangeNotification" b)) with b in *.
    apply bind_returned in Hret as ([] & Hloop & _ & _ & ->).
    rewrite !subscriptions_for_app, !length_app, (changes_subscriptions _ b id Hloop Hnd).
    cbn. lia.
  - intros _ _. pose proof (messaging_calls body b) as Hcalls.
    unfold subscriptions_for, subscriptions.
    induction Hcalls as [|c l [s ->] _ IH]; [by destruct (tracked b id)|exact IH].
  - intros _ _. destruct e; cbn; by destruct (tracked b id).
Qed.

Lemma deliver_subscriptions (inputs : list Input) (b : Bot) (id : string) :
  outcome (deliver inputs b) = Returned () →
  no_delete_of id (conversation_changes inputs) →
  length (subscriptions_for id (trace (deliver inputs b))) =
    if tracked b id then 0
    else if existsb (is_upsert_of id) (conversation_changes inputs) then 1 else 0.
Proof.
  unfold deliver. revert b. induction inputs as [|i inputs IH]; intros b Hret Hnd.
  - cbn. by destruct (tracked b id).
  - assert (conversation_changes (i :: inputs) =
            conversation_changes [i] ++ conversation_changes inputs) as Hsplit
      by (unfold conversation_changes; cbn [flat_map]; by rewrite app_nil_r).
    rewrite Hsplit in *. apply Forall_app in Hnd as [Hi Hnd].
    apply forEach_returned_cons in Hret as (Hfirst & Hrest & _ & ->).
    rewrite subscriptions_for_app, length_app, (IH _ Hrest Hnd),
      (handle_subscriptions i b id Hfirst Hi), (handle_tracked i b id Hfirst),
      (last_word_no_delete id _ _ Hi), existsb_app.
    destruct (tracked b id), (existsb _ (conversation_changes [i])); cbn;
      by destruct (existsb _ (conversation_changes inputs)).
Qed.

(** X21: over a session whose notifications were all handled to their end
    and brought no delete for a conversation, that conversation gets one
    messaging-event subscription when an upsert for it came, however many
    upserts came in however many batches, and none otherwise. *)
Theorem one_subscription_per_conversation
    (agent : string) (inputs : list Input) (id : string) :
  outcome (deliver inputs (init agent)) = Returned () →
  no_delete_of id (conversation_changes inputs) →
  length (subscriptions_for id (trace (deliver inputs (init agent)))) =
    if existsb (is_upsert_of id) (conversation_changes inputs) then 1 else 0.
Proof.
  intros Hret Hnd. by rewrite (deliver_subscriptions inputs (init agent) id Hret Hnd).
Qed.

Lemma one_subscription_per_conversation_witness :
  length (subscriptions_for "C1"
            (trace (deliver
                      [ExConversationChangeNotification
                         {| cb_changes := [upsert_with_consumer; upsert_again] |};
                       MessagingEventNotification content_batch;
                       ExConversationChangeNotification
                         {| cb_changes := [upsert_C2; upsert_with_consumer] |}]
                      (init "bot")))) = 1.
Proof.
  apply (one_subscription_per_conversation "bot"
           [ExConversationChangeNotification
              {| cb_changes := [upsert_with_consumer; upsert_again] |};
            MessagingEventNotification content_batch;
            ExConversationChangeNotification
              {| cb_changes := [upsert_C2; upsert_with_consumer] |}] "C1").
  - reflexivity.
  - repeat constructor.
Defined.
